(** * Local knowledge base: retrieval-augmented question answering

    A shallow embedding of [scripts/knowledge_base.py] (class
    [LocalKnowledgeBase] and [main]) and of the callbacks of
    [scripts/web_ui.py] (class [KnowledgeBaseUI]).

    Python [str] values are sequences of Unicode code points, objects
    mutated in place ([self.memory], the persisted Chroma directory, the
    logging handlers) are threaded explicitly, generators are modelled by the
    program points at which they are suspended, and the services the program
    only calls (file parsers, the retriever, the language model, the clock)
    are fields of an environment record.  Console output ([print]) and the
    progress lines of the build callback are not modelled. *)

From Stdlib Require Import NArith Ascii String Lia.
From stdpp Require Import base option list gmap pretty.

Local Open Scope N_scope.
Local Open Scope nat_scope.

(** ** Text *)

(** A Python character is a code point; a Python [str] is a list of them. *)
Definition pychar := N.
Definition pystr := list pychar.

Fixpoint string_bytes (s : string) : list N :=
  match s with
  | EmptyString => []
  | String a r => N_of_ascii a :: string_bytes r
  end.

(** UTF-8 decoding of a source literal, so that the literals below are the
    very texts of the Python source. *)
Fixpoint utf8_go (need : nat) (acc : N) (bs : list N) : pystr :=
  match bs with
  | [] => []
  | b :: r =>
      match need with
      | O =>
          if (b <? 128)%N then b :: utf8_go 0 0%N r
          else if (b <? 224)%N then utf8_go 1 (b - 192)%N r
          else if (b <? 240)%N then utf8_go 2 (b - 224)%N r
          else utf8_go 3 (b - 240)%N r
      | S O => (acc * 64 + (b - 128))%N :: utf8_go 0 0%N r
      | S k => utf8_go k (acc * 64 + (b - 128))%N r
      end
  end.

Definition py (s : string) : pystr := utf8_go 0 0%N (string_bytes s).

Definition LT : pychar := 60%N.
Definition GT : pychar := 62%N.
Definition SPACE : pychar := 32%N.
Definition NEWLINE : pychar := 10%N.
Definition DQUOTE : pychar := 34%N.

(** [sep.join(parts)] *)
Fixpoint join (sep : pystr) (parts : list pystr) : pystr :=
  match parts with
  | [] => []
  | [p] => p
  | p :: rest => p ++ sep ++ join sep rest
  end.

(** [str(n)] for a non-negative integer such as [len(splits)]. *)
Definition str_of_nat (n : nat) : pystr := py (pretty n).

(** ** Exceptions and outcomes of calls into services *)

(** What can be raised inside or thrown into a generator.  [GeneratorExit] is
    a [BaseException] that is not an [Exception]: [except Exception] does not
    catch it. *)
Inductive exn :=
| PyException (msg : pystr)
| GeneratorExit.

Definition is_Exception (e : exn) : bool :=
  match e with
  | PyException _ => true
  | GeneratorExit => false
  end.

(** [str(e)] *)
Definition exn_str (e : exn) : pystr :=
  match e with
  | PyException msg => msg
  | GeneratorExit => []
  end.

(** A call into a parser, the retriever or the model either returns or raises
    an [Exception] [e]; [Raises msg] carries [str(e)]. *)
Inductive outcome (A : Type) :=
| Ok (a : A)
| Raises (msg : pystr).
Arguments Ok {A} a.
Arguments Raises {A} msg.

(** ** Documents, messages, configuration *)

Record Document := {
  page_content : pystr;
  metadata : gmap pystr pystr
}.

(** Messages of [ConversationBufferMemory.chat_memory]. *)
Inductive message :=
| HumanMessage (content : pystr)
| AIMessage (content : pystr).

Definition msg_type (m : message) : pystr :=
  match m with
  | HumanMessage _ => py "human"
  | AIMessage _ => py "ai"
  end.

Definition msg_content (m : message) : pystr :=
  match m with
  | HumanMessage c => c
  | AIMessage c => c
  end.

(** The keys of [config.yaml] the two modules read. *)
Record Config := {
  persist_directory : pystr;
  collection_name : pystr;
  chunk_size : nat;
  chunk_overlap : nat;
  separators : list pystr;
  search_type : pystr;
  retrieval_k : nat;
  supported_formats : option (list pystr);
  embeddings_model_name : pystr;
  ollama_model : pystr
}.

Inductive log_entry :=
| LogInfo (msg : pystr)
| LogWarning (msg : pystr)
| LogError (msg : pystr).

(** ** Source files as the parsers see them *)

Inductive loader_kind :=
| TextLoader
| PyPDFLoader
| Docx2txtLoader
| UnstructuredMarkdownLoader.

(** One entry of [book.get_items()]: whether [item.get_type()] is
    [ITEM_DOCUMENT], and the outcome of
    [item.get_content().decode('utf-8')]. *)
Record epub_item := {
  item_is_document : bool;
  item_content : outcome pystr
}.

(** One entry of [book.get_metadata('DC', name)]: a tuple of a value and
    its attributes.  [dc_value] is the value; [dc_str] is Python's [str()]
    of the whole tuple, which is what the loader keeps: for the title
    [Colours] without attributes it reads [('Colours', {})]. *)
Record dc_entry := {
  dc_value : pystr;
  dc_str : pystr
}.

(** [book_dc] is the outcome of [book.get_metadata('DC', 'title')] and
    [book.get_metadata('DC', 'creator')]: the two lists of entries, or the
    [KeyError] both calls raise on a book without a Dublin Core section. *)
Record epub_book := {
  book_items : list epub_item;
  book_dc : outcome (list dc_entry * list dc_entry)
}.

(** [file_ext] is [Path(file_path).suffix.lower()]; [loader_load k] is the
    outcome of constructing loader [k] on the file and calling [load()];
    [epub_read] is the outcome of [epub.read_epub]. *)
Record source_file := {
  file_ext : pystr;
  loader_load : loader_kind -> outcome (list Document);
  epub_read : outcome epub_book
}.

(** ** The language model's stream *)

(** A value found in a chunk's [content] attribute: its truth value and its
    [str()]. *)
Record pyval := {
  truthy : bool;
  to_str : pystr
}.

(** A chunk of [self.llm.stream(prompt)]: the [content] attribute when
    [hasattr(chunk, 'content')], and the string when
    [isinstance(chunk, str)]. *)
Record chunk := {
  content_attr : option pyval;
  str_value : option pystr
}.

(** The iterator returned by [self.llm.stream(prompt)]: it ends, raises, or
    hands out a chunk. *)
Inductive llm_response :=
| RDone
| RFail (msg : pystr)
| RChunk (c : chunk) (rest : llm_response).

(** ** The environment: services the program calls *)

Record Env := {
  (** the file behind a path *)
  file_at : pystr -> source_file;
  (** [glob.glob(os.path.join(docs_dir, '**', pattern), recursive=True)] *)
  glob_recursive : pystr -> pystr -> list pystr;
  (** [glob.glob(os.path.join(docs_dir, ext))] *)
  glob_flat : pystr -> pystr -> list pystr;
  (** [os.path.exists] on a documents directory *)
  path_exists : pystr -> bool;
  (** [RecursiveCharacterTextSplitter(chunk_size, chunk_overlap,
      separators).split_documents]; [TextSplitter.split_documents] below
      transcribes the library's *)
  split_documents : nat -> nat -> list pystr -> list Document -> list Document;
  filter_complex_metadata : list Document -> list Document;
  (** the retriever over the entries of the opened collection *)
  get_relevant_documents : list Document -> pystr -> outcome (list Document);
  (** [self.llm.stream(prompt)] *)
  llm_stream : pystr -> llm_response;
  (** [self.qa_chain({"question": question})], given the collection and the
      messages of the memory object the chain was created with: the
      ['answer'] and, when present, the ['source_documents'] *)
  qa_chain_call :
    list Document -> list message -> pystr ->
    outcome (pystr * option (list Document));
  (** the elapsed time of the run rendered by [{generation_time:.2f}] *)
  generation_time_2f : pystr
}.

(** ** The knowledge-base object and the world around it *)

(** A [Chroma] handle: persist directory and collection name. *)
Definition store_handle : Type := pystr * pystr.

Record KB := {
  config : Config;
  embeddings : bool;
  vectorstore : option store_handle;
  llm : bool;
  qa_chain : bool;
  memory : list message
}.

(** What Chroma finds in a directory that exists: no [chroma.sqlite3], a
    database, which maps collection names to their entries, oldest first, or
    a [chroma.sqlite3] it cannot open, with the [str()] of the exception the
    attempt raises. *)
Inductive directory :=
| Bare
| Database (collections : gmap pystr (list Document))
| Unreadable (msg : pystr).

(** The disk maps the directories that exist to what they hold.  The log is
    the sequence of records handed to [logging], whatever the configured
    level lets through to the handlers. *)
Record World := {
  disk : gmap pystr directory;
  log : list log_entry
}.

Definition set_embeddings (b : bool) (s : KB) : KB :=
  {| config := config s; embeddings := b; vectorstore := vectorstore s;
     llm := llm s; qa_chain := qa_chain s; memory := memory s |}.

Definition set_vectorstore (v : option store_handle) (s : KB) : KB :=
  {| config := config s; embeddings := embeddings s; vectorstore := v;
     llm := llm s; qa_chain := qa_chain s; memory := memory s |}.

Definition set_llm (b : bool) (s : KB) : KB :=
  {| config := config s; embeddings := embeddings s;
     vectorstore := vectorstore s; llm := b; qa_chain := qa_chain s;
     memory := memory s |}.

Definition set_qa_chain (b : bool) (s : KB) : KB :=
  {| config := config s; embeddings := embeddings s;
     vectorstore := vectorstore s; llm := llm s; qa_chain := b;
     memory := memory s |}.

Definition set_memory (m : list message) (s : KB) : KB :=
  {| config := config s; embeddings := embeddings s;
     vectorstore := vectorstore s; llm := llm s; qa_chain := qa_chain s;
     memory := m |}.

Definition set_disk (d : gmap pystr directory) (w : World) : World :=
  {| disk := d; log := log w |}.

Definition add_log (e : log_entry) (w : World) : World :=
  {| disk := disk w; log := log w ++ [e] |}.

(** ** The persisted vector store (Chroma, as the program uses it)

    [Chroma(persist_directory, collection_name)] opens the database in the
    directory, creating directory, [chroma.sqlite3] and collection as needed
    (get-or-create); [Chroma.from_documents] opens the same way and then adds
    the documents under fresh identifiers, after whatever the collection
    already holds.  Entries are kept as their documents, in insertion
    order.

    Two things make these calls raise.  A [chroma.sqlite3] that cannot be
    opened fails both.  And the clients of one process on one directory
    share their connection: once the directory has been removed under a
    client the process holds, a write through that directory fails (SQLite
    reports an attempt to write a readonly database), and
    [Chroma.from_documents] raises before anything is created. *)

Definition collection_entries (dir name : pystr)
    (d : gmap pystr directory) : list Document :=
  match d !! dir with
  | Some (Database db) => default [] (db !! name)
  | _ => []
  end.

Definition chroma_database (dir : pystr) (d : gmap pystr directory)
    : gmap pystr (list Document) :=
  match d !! dir with
  | Some (Database db) => db
  | _ => ∅
  end.

(** What a successful [Chroma(dir, name)] leaves on the disk. *)
Definition chroma_open (dir name : pystr) (d : gmap pystr directory)
    : gmap pystr directory :=
  <[dir := Database (<[name := collection_entries dir name d]>
                       (chroma_database dir d))]> d.

(** What a successful [Chroma.from_documents] leaves on the disk. *)
Definition from_documents (documents : list Document) (dir name : pystr)
    (d : gmap pystr directory) : gmap pystr directory :=
  <[dir := Database (<[name := collection_entries dir name d ++ documents]>
                       (chroma_database dir d))]> d.

(** [shutil.rmtree(dir)] *)
Definition rmtree (dir : pystr) (d : gmap pystr directory)
    : gmap pystr directory :=
  delete dir d.

(** [os.path.exists(dir)] *)
Definition dir_exists (dir : pystr) (d : gmap pystr directory) : bool :=
  bool_decide (is_Some (d !! dir)).

(** [os.path.exists(os.path.join(dir, 'chroma.sqlite3'))] *)
Definition marker_exists (dir : pystr) (d : gmap pystr directory) : bool :=
  match d !! dir with
  | Some (Database _) | Some (Unreadable _) => true
  | _ => false
  end.

(** Whether the object holds a client on [dir]. *)
Definition client_on (dir : pystr) (s : KB) : bool :=
  match vectorstore s with
  | Some (dir', _) => bool_decide (dir' = dir)
  | None => false
  end.

(** [str(e)] of the exception a write through a removed directory raises. *)
Definition readonly_database : pystr :=
  py "attempt to write a readonly database".

(** The call [Chroma(persist_directory=dir, collection_name=name)]. *)
Definition Chroma (dir name : pystr) (d : gmap pystr directory)
    : outcome (gmap pystr directory) :=
  match d !! dir with
  | Some (Unreadable msg) => Raises msg
  | _ => Ok (chroma_open dir name d)
  end.

(** The call [Chroma.from_documents(documents, persist_directory=dir,
    collection_name=name)] made by the object [s]. *)
Definition Chroma_from_documents (documents : list Document)
    (dir name : pystr) (s : KB) (d : gmap pystr directory)
    : outcome (gmap pystr directory) :=
  match d !! dir with
  | Some (Unreadable msg) => Raises msg
  | Some _ => Ok (from_documents documents dir name d)
  | None =>
      if client_on dir s then Raises readonly_database
      else Ok (from_documents documents dir name d)
  end.

(** The entries behind the object's [vectorstore], if it has one. *)
Definition index_entries (w : World) (s : KB) : option (list Document) :=
  match vectorstore s with
  | Some (dir, name) => Some (collection_entries dir name (disk w))
  | None => None
  end.

(** ** Cleaning of e-book markup *)

(** Truth value of a [str]. *)
Definition nonempty (s : pystr) : bool :=
  match s with
  | [] => false
  | _ :: _ => true
  end.

(** [str.isspace] on one character; the same predicate decides [\s] in a
    [str] pattern and what [str.strip()] removes. *)
Definition isspace (c : pychar) : bool :=
  ((9 <=? c) && (c <=? 13) || (28 <=? c) && (c <=? 32)
   || (c =? 133) || (c =? 160) || (c =? 5760)
   || (8192 <=? c) && (c <=? 8202)
   || (c =? 8232) || (c =? 8233) || (c =? 8239) || (c =? 8287)
   || (c =? 12288))%N.

(** Whether [<[^>]+>] matches at a [<] that is followed by [r]: a non-empty
    run of characters other than [>], then a [>]. *)
Definition tag_opens (r : pystr) : bool :=
  match r with
  | [] => false
  | x :: r' => negb (x =? GT)%N && existsb (fun c => (c =? GT)%N) r'
  end.

(** [re.sub(r'<[^>]+>', '', s)], scanning left to right; [in_tag] holds while
    the characters of a match are being dropped, up to its closing [>]. *)
Fixpoint remove_tags_from (in_tag : bool) (s : pystr) : pystr :=
  match s with
  | [] => []
  | c :: r =>
      if in_tag then
        if (c =? GT)%N then remove_tags_from false r
        else remove_tags_from true r
      else if (c =? LT)%N && tag_opens r then remove_tags_from true r
      else c :: remove_tags_from false r
  end.

Definition remove_tags (s : pystr) : pystr := remove_tags_from false s.

(** [re.sub(r'\s+', ' ', s)]; [in_run] holds after a whitespace character of
    the current run has been replaced. *)
Fixpoint collapse_from (in_run : bool) (s : pystr) : pystr :=
  match s with
  | [] => []
  | c :: r =>
      if isspace c then
        if in_run then collapse_from true r
        else SPACE :: collapse_from true r
      else c :: collapse_from false r
  end.

Definition collapse_whitespace (s : pystr) : pystr := collapse_from false s.

Fixpoint lstrip (s : pystr) : pystr :=
  match s with
  | [] => []
  | c :: r => if isspace c then lstrip r else s
  end.

Definition rstrip (s : pystr) : pystr := rev (lstrip (rev s)).

(** [s.strip()] *)
Definition strip (s : pystr) : pystr := rstrip (lstrip s).

(** The two substitutions and the [strip] applied to a component. *)
Definition clean_content (content : pystr) : pystr :=
  strip (collapse_whitespace (remove_tags content)).

(** ** Loader *)

(** [str(meta[0])] when the list has an entry, ['Unknown'] otherwise. *)
Definition first_or_unknown (meta : list dc_entry) : pystr :=
  match meta with
  | x :: _ => dc_str x
  | [] => py "Unknown"
  end.

Definition epub_document (file_path : pystr)
    (title_meta author_meta : list dc_entry) (clean : pystr) : Document :=
  {| page_content := clean;
     metadata :=
       list_to_map
         [(py "source", file_path);
          (py "title", first_or_unknown title_meta);
          (py "author", first_or_unknown author_meta)] |}.

(** The loop over [book.get_items()], appending to [documents]. *)
Fixpoint epub_items (file_path : pystr) (book : epub_book)
    (items : list epub_item) (documents : list Document)
    : outcome (list Document) :=
  match items with
  | [] => Ok documents
  | item :: rest =>
      if item_is_document item then
        match item_content item with
        | Raises msg => Raises msg
        | Ok content =>
            if nonempty (strip content) then
              let clean := clean_content content in
              if nonempty clean then
                match book_dc book with
                | Raises msg => Raises msg
                | Ok (title_meta, author_meta) =>
                    epub_items file_path book rest
                      (documents
                       ++ [epub_document file_path title_meta author_meta
                             clean])
                end
              else epub_items file_path book rest documents
            else epub_items file_path book rest documents
        end
      else epub_items file_path book rest documents
  end.

Definition load_epub (file_path : pystr) (f : source_file)
    : outcome (list Document) :=
  match epub_read f with
  | Raises msg => Raises msg
  | Ok book => epub_items file_path book (book_items book) []
  end.

Definition load_failed (file_path msg : pystr) : log_entry :=
  LogError (py "加载文件失败 " ++ file_path ++ py ": " ++ msg).

Definition unsupported_format (file_path : pystr) : log_entry :=
  LogWarning (py "不支持的文件格式: " ++ file_path).

Section Program.

Context (env : Env).

(** The body of the [try] of [_load_document]: [None] is the branch of an
    unsupported extension. *)
Definition load_attempt (file_path : pystr)
    : option (outcome (list Document)) :=
  let f := file_at env file_path in
  let ext := file_ext f in
  if bool_decide (ext = py ".txt") then Some (loader_load f TextLoader)
  else if bool_decide (ext = py ".pdf") then Some (loader_load f PyPDFLoader)
  else if bool_decide (ext = py ".docx") then
    Some (loader_load f Docx2txtLoader)
  else if bool_decide (ext = py ".md") then
    Some (loader_load f UnstructuredMarkdownLoader)
  else if bool_decide (ext = py ".epub") then Some (load_epub file_path f)
  else None.

Definition _load_document (file_path : pystr) (w : World)
    : list Document * World :=
  match load_attempt file_path with
  | Some (Ok documents) => (documents, w)
  | Some (Raises msg) => ([], add_log (load_failed file_path msg) w)
  | None => ([], add_log (unsupported_format file_path) w)
  end.

(** ** Build *)

Definition embeddings_loaded (cfg : Config) : log_entry :=
  LogInfo (py "嵌入模型加载: " ++ embeddings_model_name cfg).

Definition _initialize_embeddings (w : World) (s : KB) : World * KB :=
  if embeddings s then (w, s)
  else (add_log (embeddings_loaded (config s)) w, set_embeddings true s).

Definition ollama_connected (cfg : Config) : log_entry :=
  LogInfo (py "Ollama 模型: " ++ ollama_model cfg).

Definition _initialize_llm (w : World) (s : KB) : World * KB :=
  if llm s then (w, s)
  else (add_log (ollama_connected (config s)) w, set_llm true s).

Definition _try_load_existing_knowledge_base (w : World) (s : KB)
    : World * KB :=
  let persist_dir := persist_directory (config s) in
  if dir_exists persist_dir (disk w) && marker_exists persist_dir (disk w)
  then
    let '(w1, s1) := _initialize_embeddings w s in
    match Chroma persist_dir (collection_name (config s)) (disk w1) with
    | Ok d =>
        (set_disk d w1,
         set_vectorstore (Some (persist_dir, collection_name (config s))) s1)
    | Raises _ => (w1, set_vectorstore None s1)
    end
  else (w, s).

(** [colorama.Fore.GREEN] *)
Definition Fore_GREEN : pystr := 27%N :: py "[32m".

Definition initialized : log_entry :=
  LogInfo (Fore_GREEN ++ py "本地知识库初始化完成").

(** [LocalKnowledgeBase(config_path)], the configuration already read. *)
Definition init (cfg : Config) (w : World) : World * KB :=
  let '(w1, s1) :=
    _try_load_existing_knowledge_base w
      {| config := cfg; embeddings := false; vectorstore := None;
         llm := false; qa_chain := false; memory := [] |} in
  (add_log initialized w1, s1).

Definition default_formats : list pystr :=
  [py "*.txt"; py "*.pdf"; py "*.docx"; py "*.md"; py "*.epub"].

(** The loop of [build_knowledge_base] over [all_files]. *)
Fixpoint load_all (files : list pystr) (documents : list Document)
    (w : World) : list Document * World :=
  match files with
  | [] => (documents, w)
  | file_path :: rest =>
      let '(docs, w1) := _load_document file_path w in
      if bool_decide (docs ≠ []) then load_all rest (documents ++ docs) w1
      else load_all rest documents w1
  end.

Definition build_done (n : nat) : log_entry :=
  LogInfo (py "知识库构建完成: " ++ str_of_nat n ++ py " 个文档块").

(** [build_knowledge_base] from the point where [all_files] is known.  The
    call returns, or an exception of [Chroma.from_documents] leaves it. *)
Definition ingest (all_files : list pystr) (w : World) (s : KB)
    : outcome unit * World * KB :=
  let cfg := config s in
  match all_files with
  | [] => (Ok tt, w, s)
  | _ :: _ =>
      let '(documents, w1) := load_all all_files [] w in
      match documents with
      | [] => (Ok tt, w1, s)
      | _ :: _ =>
          let splits :=
            split_documents env (chunk_size cfg) (chunk_overlap cfg)
              (separators cfg) documents in
          let splits := filter_complex_metadata env splits in
          match
            Chroma_from_documents splits (persist_directory cfg)
              (collection_name cfg) s (disk w1)
          with
          | Ok d =>
              (Ok tt, add_log (build_done (length splits)) (set_disk d w1),
               set_vectorstore
                 (Some (persist_directory cfg, collection_name cfg)) s)
          | Raises msg => (Raises msg, w1, s)
          end
      end
  end.

(** [build_knowledge_base(docs_dir, rebuild)]: the call returns, or an
    exception of Chroma leaves it. *)
Definition build_knowledge_base (docs_dir : pystr) (rebuild : bool)
    (w : World) (s : KB) : outcome unit * World * KB :=
  let '(w0, s1) := _initialize_embeddings w s in
  let cfg := config s1 in
  let persist_dir := persist_directory cfg in
  if dir_exists persist_dir (disk w0) && negb rebuild then
    match Chroma persist_dir (collection_name cfg) (disk w0) with
    | Ok d =>
        (Ok tt, set_disk d w0,
         set_vectorstore (Some (persist_dir, collection_name cfg)) s1)
    | Raises msg => (Raises msg, w0, s1)
    end
  else
    let file_patterns := default default_formats (supported_formats cfg) in
    let all_files := flat_map (glob_recursive env docs_dir) file_patterns in
    ingest all_files w0 s1.

(** *** The build callback of the web interface

    [KnowledgeBaseUI.build_kb_stream] is a generator of progress lines; the
    function below is its effect on the object and the disk when it is
    consumed to the end, and the way it ends: with the message that the
    directory is not valid, with the lines of a finished build, or in its
    [except] clause, with the line [❌ 构建失败: msg]. *)

Inductive build_end :=
| BuildRefused
| BuildCompleted
| BuildFailed (msg : pystr).

Definition ui_formats : list pystr :=
  [py "*.txt"; py "*.md"; py "*.pdf"; py "*.docx"; py "*.epub"].

Fixpoint ui_load_all (files : list pystr) (documents : list Document)
    (w : World) : list Document * World :=
  match files with
  | [] => (documents, w)
  | file_path :: rest =>
      let '(doc, w1) := _load_document file_path w in
      ui_load_all rest (documents ++ doc) w1
  end.

Definition build_kb_stream (docs_dir : pystr) (rebuild : bool)
    (w : World) (s : KB) : build_end * World * KB :=
  if negb (nonempty docs_dir) || negb (path_exists env docs_dir)
  then (BuildRefused, w, s)
  else
    let files := flat_map (glob_flat env docs_dir) ui_formats in
    let '(w0, s1) := _initialize_embeddings w s in
    let cfg := config s1 in
    let '(documents, w1) := ui_load_all files [] w0 in
    let splits :=
      split_documents env (chunk_size cfg) (chunk_overlap cfg)
        (separators cfg) documents in
    let persist_dir := persist_directory cfg in
    let d :=
      if rebuild && dir_exists persist_dir (disk w1)
      then rmtree persist_dir (disk w1) else disk w1 in
    match
      Chroma_from_documents splits persist_dir (collection_name cfg) s1 d
    with
    | Ok d1 =>
        (BuildCompleted, set_disk d1 w1,
         set_vectorstore (Some (persist_dir, collection_name cfg)) s1)
    | Raises msg => (BuildFailed msg, set_disk d w1, s1)
    end.

End Program.

(** ** Prompt *)

(** The template of [query_stream] (the same text is given to the chain in
    [_create_qa_chain]), cut at its three placeholders. *)
Definition template_before_context : pystr :=
  py "你是一个专业的中文知识助手。你必须使用中文回答所有问题。

请仔细阅读以下上下文信息，并用中文详细回答用户的问题。

重要规则：
1. 必须使用中文回答，不要使用英文
2. 基于上下文信息提供准确、详细的答案
3. 如果上下文中没有相关信息，请用中文说"
  ++ [DQUOTE]
  ++ py "根据提供的信息，我无法回答这个问题"
  ++ [DQUOTE]
  ++ py "
4. 保持专业和友好的语气
5. 可以引用具体的段落和示例
6. 使用清晰的 Markdown 格式，包括：
   - 使用 ## 作为二级标题（不要使用 ###）
   - 使用 - 作为列表项
   - 使用 **粗体** 强调重要内容
   - 代码块使用 ```语言 格式
7. 确保所有中文字符正确显示，不要出现乱码
8. 输出要稳定，避免字符错误

上下文信息:
".

Definition template_before_history : pystr :=
  py "

历史对话:
".

Definition template_before_question : pystr :=
  py "

用户问题: ".

Definition template_after_question : pystr :=
  py "

请用中文详细回答，确保字符正确显示，并使用清晰的 Markdown 格式:".

(** [prompt_template.format(context=..., chat_history=..., question=...)] *)
Definition format_prompt (context chat_history question : pystr) : pystr :=
  template_before_context ++ context
  ++ template_before_history ++ chat_history
  ++ template_before_question ++ question
  ++ template_after_question.

(** [chat_history[-6:]] *)
Definition last_six (chat_history : list message) : list message :=
  drop (length chat_history - 6) chat_history.

(** [f"{msg.type}: {msg.content}"] *)
Definition render_message (m : message) : pystr :=
  msg_type m ++ py ": " ++ msg_content m.

(** The history part of the prompt of [query_stream]. *)
Definition chat_history_str (chat_history : list message) : pystr :=
  join [NEWLINE] (map render_message (last_six chat_history)).

(** The context part: [\n\n.join(doc.page_content for doc in docs)]. *)
Definition context_str (docs : list Document) : pystr :=
  join [NEWLINE; NEWLINE] (map page_content docs).

(** The messages [ConversationBufferMemory] hands to the chain of the
    blocking [query] as [chat_history]: the whole buffer. *)
Definition chain_history (chat_history : list message) : list message :=
  chat_history.

Definition not_initialized : pystr :=
  py "错误: 知识库未初始化，请先构建知识库".

Definition query_failed (msg : pystr) : pystr := py "查询失败: " ++ msg.

(** [f"\n\n⏱️ **生成时间**: {generation_time:.2f}秒"] *)
Definition time_info (generation_time : pystr) : pystr :=
  [NEWLINE; NEWLINE] ++ py "⏱️ **生成时间**: " ++ generation_time ++ py "秒".

(** [chat_memory.add_user_message(question)] then
    [chat_memory.add_ai_message(answer)]. *)
Definition add_turn (question answer : pystr) (s : KB) : KB :=
  set_memory (memory s ++ [HumanMessage question; AIMessage answer]) s.

(** ** The query generator's protocol *)

(** The program points at which [query_stream] can be suspended, with the
    local variables that are live there. *)
Inductive gen_state :=
| GenCreated
| GenAtNotInitialized
| GenInLoop (docs : list Document) (answer_chunks : list pystr)
    (response : llm_response)
| GenAtTimeInfo
| GenAtError
| GenFinished.

(** [next(gen)], or [gen.throw(e)]; [gen.close()] throws [GeneratorExit]
    into the generator and absorbs it when it comes back out. *)
Inductive resume_cmd :=
| Next
| Throw (e : exn).

Inductive gen_result :=
| Yield (text : pystr) (docs : list Document)
| StopIteration
| Propagates (e : exn).

(** The text the loop body takes from one chunk, if any. *)
Definition chunk_text (c : chunk) : option pystr :=
  let from_str :=
    match str_value c with
    | Some content => if nonempty content then Some content else None
    | None => None
    end in
  match content_attr c with
  | Some v =>
      if truthy v then
        if nonempty (to_str v) then Some (to_str v) else None
      else from_str
  | None => from_str
  end.

Section Queries.

Context (env : Env).

Definition _create_qa_chain (w : World) (s : KB) : World * KB :=
  if qa_chain s then (w, s)
  else
    let '(w1, s1) := _initialize_llm w s in
    (w1, set_qa_chain true s1).

(** The blocking [query].  The chain shares the object's memory: a call that
    returns has saved the question and the answer there. *)
Definition query (question : pystr) (show_sources : bool) (w : World)
    (s : KB) : (pystr * list Document) * World * KB :=
  match index_entries w s with
  | None => ((not_initialized, []), w, s)
  | Some entries =>
      let '(w1, s1) := _create_qa_chain w s in
      match qa_chain_call env entries (chain_history (memory s1)) question
      with
      | Ok (answer, source_documents) =>
          let sources := default [] source_documents in
          let answer_with_time :=
            answer ++ time_info (generation_time_2f env) in
          ((answer_with_time, sources), w1, add_turn question answer s1)
      | Raises msg =>
          let error_msg := query_failed msg in
          ((error_msg, []), add_log (LogError error_msg) w1, s1)
      end
  end.

(** The [except Exception] clause of [query_stream]. *)
Definition stream_failed (msg : pystr) (w : World) (s : KB)
    : gen_result * gen_state * World * KB :=
  let error_msg := query_failed msg in
  (Yield error_msg [], GenAtError, add_log (LogError error_msg) w, s).

(** The [for chunk in response] loop, run until its next [yield], and what
    follows the loop when the response ends. *)
Fixpoint stream_loop (question : pystr) (docs : list Document)
    (answer_chunks : list pystr) (response : llm_response) (w : World)
    (s : KB) : gen_result * gen_state * World * KB :=
  match response with
  | RChunk c rest =>
      match chunk_text c with
      | Some content =>
          (Yield content docs,
           GenInLoop docs (answer_chunks ++ [content]) rest, w, s)
      | None => stream_loop question docs answer_chunks rest w s
      end
  | RFail msg => stream_failed msg w s
  | RDone =>
      let full_answer := concat answer_chunks in
      (Yield (time_info (generation_time_2f env)) docs, GenAtTimeInfo, w,
       add_turn question full_answer s)
  end.

(** One resumption of [query_stream(question)]. *)
Definition query_stream (question : pystr) (show_sources : bool)
    (cmd : resume_cmd) (g : gen_state) (w : World) (s : KB)
    : gen_result * gen_state * World * KB :=
  match g, cmd with
  | GenCreated, Next =>
      match index_entries w s with
      | None => (Yield not_initialized [], GenAtNotInitialized, w, s)
      | Some entries =>
          let '(w1, s1) := _create_qa_chain w s in
          match get_relevant_documents env entries question with
          | Raises msg => stream_failed msg w1 s1
          | Ok docs =>
              let context := context_str docs in
              let prompt :=
                format_prompt context (chat_history_str (memory s1))
                  question in
              stream_loop question docs [] (llm_stream env prompt) w1 s1
          end
      end
  | GenInLoop docs answer_chunks response, Next =>
      stream_loop question docs answer_chunks response w s
  | GenInLoop _ _ _, Throw e | GenAtTimeInfo, Throw e =>
      if is_Exception e then stream_failed (exn_str e) w s
      else (Propagates e, GenFinished, w, s)
  | _, Next => (StopIteration, GenFinished, w, s)
  | _, Throw e => (Propagates e, GenFinished, w, s)
  end.

(** A consumer: the commands it sends, in order; the results it sees. *)
Fixpoint consume (question : pystr) (cmds : list resume_cmd) (g : gen_state)
    (w : World) (s : KB) : list gen_result * gen_state * World * KB :=
  match cmds with
  | [] => ([], g, w, s)
  | cmd :: rest =>
      let '(r, g1, w1, s1) := query_stream question false cmd g w s in
      let '(rs, g2, w2, s2) := consume question rest g1 w1 s1 in
      (r :: rs, g2, w2, s2)
  end.

End Queries.

(** The texts the loop yields for a response, and whether it ends without
    raising. *)
Fixpoint response_texts (response : llm_response) : list pystr :=
  match response with
  | RChunk c rest =>
      match chunk_text c with
      | Some content => content :: response_texts rest
      | None => response_texts rest
      end
  | _ => []
  end.

Fixpoint response_completes (response : llm_response) : bool :=
  match response with
  | RChunk _ rest => response_completes rest
  | RFail _ => false
  | RDone => true
  end.

(** The response [query_stream] iterates over, when it gets that far: [None]
    when there is no index or the retriever raises. *)
Definition stream_response (env : Env) (question : pystr) (w : World)
    (s : KB) : option (list Document * llm_response) :=
  match index_entries w s with
  | None => None
  | Some entries =>
      match get_relevant_documents env entries question with
      | Raises _ => None
      | Ok docs =>
          Some (docs,
                llm_stream env
                  (format_prompt (context_str docs)
                     (chat_history_str (memory s)) question))
      end
  end.

Definition is_next (cmd : resume_cmd) : bool :=
  match cmd with
  | Next => true
  | Throw _ => false
  end.

(** ** What cleaned text looks like *)

(** A match of [<[^>]+>] somewhere in [t]. *)
Definition has_tag (t : pystr) : Prop :=
  ∃ a b c, t = a ++ LT :: b ++ GT :: c ∧ b ≠ [] ∧ GT ∉ b.

(** The only whitespace characters of [t] are single spaces, never two in a
    row and none at either end. *)
Definition whitespace_collapsed (t : pystr) : Prop :=
  (∀ c, c ∈ t → isspace c = true → c = SPACE)
  ∧ (∀ a x y b, t = a ++ x :: y :: b →
       ¬ (isspace x = true ∧ isspace y = true))
  ∧ (∀ c, head t = Some c → isspace c = false)
  ∧ (∀ c, last t = Some c → isspace c = false).

(** No [<] of [t] opens a match. *)
Fixpoint tag_free (t : pystr) : bool :=
  match t with
  | [] => true
  | c :: r => negb ((c =? LT)%N && tag_opens r) && tag_free r
  end.

(** Whitespace in [t] is single spaces, [after_space] telling whether the
    character before [t] is one. *)
Fixpoint single_spaced (after_space : bool) (t : pystr) : bool :=
  match t with
  | [] => true
  | c :: r =>
      if isspace c then
        (c =? SPACE)%N && negb after_space && single_spaced true r
      else single_spaced false r
  end.

(** The decoded texts of the document components of a book all of whose
    document components decode. *)
Definition component_text (item : epub_item) : option pystr :=
  if item_is_document item then
    match item_content item with
    | Ok content => Some content
    | Raises _ => None
    end
  else None.

Definition decodes (item : epub_item) : Prop :=
  item_is_document item = true → ∃ content, item_content item = Ok content.

(** What the loader promises of a unit taken from an e-book. *)
Definition clean_unit (d : Document) : Prop :=
  page_content d ≠ []
  ∧ ¬ has_tag (page_content d)
  ∧ whitespace_collapsed (page_content d).


(** ** The chunker

    The build hands the loaded documents to LangChain's
    [RecursiveCharacterTextSplitter], constructed with the configured
    [chunk_size], [chunk_overlap] and [separators] and the library's
    defaults otherwise ([keep_separator=True], [strip_whitespace=True],
    [length_function=len], separators taken literally).  The class is
    library code, not part of the repository; this module transcribes its
    [split_text] so that the chunks of a unit can be computed. *)

Module TextSplitter.

Section Splitter.

Context (chunk_size chunk_overlap : nat).

(** Whether the literal [sep] occurs at the start of [text]. *)
Fixpoint starts_with (sep text : pystr) : bool :=
  match sep, text with
  | [], _ => true
  | _ :: _, [] => false
  | a :: sep', c :: text' => (a =? c)%N && starts_with sep' text'
  end.

(** [re.search(re.escape(sep), text)] *)
Fixpoint occurs (sep text : pystr) : bool :=
  match text with
  | [] => starts_with sep []
  | _ :: r => starts_with sep text || occurs sep r
  end.

(** [re.split] on the literal [sep] with the separators kept, each glued to
    the front of the piece that follows it; [skip] counts the characters of
    the occurrence being copied. *)
Fixpoint split_keeping (sep : pystr) (skip : nat) (current text : pystr)
    : list pystr :=
  match text with
  | [] => [current]
  | c :: r =>
      match skip with
      | S k => split_keeping sep k (current ++ [c]) r
      | O =>
          if starts_with sep text
          then current :: split_keeping sep (length sep - 1) [c] r
          else split_keeping sep 0 (current ++ [c]) r
      end
  end.

(** [_split_text_with_regex(text, separator, keep_separator=True)] *)
Definition _split_text_with_regex (text separator : pystr) : list pystr :=
  let splits :=
    match separator with
    | [] => map (λ c, [c]) text
    | _ :: _ => split_keeping separator 0 [] text
    end in
  filter (.≠ []) splits.

(** [_join_docs]: [None] when nothing but whitespace is left. *)
Definition _join_docs (docs : list pystr) (separator : pystr)
    : option pystr :=
  let text := strip (join separator docs) in
  match text with
  | [] => None
  | _ :: _ => Some text
  end.

(** The [while] loop of [_merge_splits], popping pieces off the front of
    [current_doc].  The loop condition cannot hold on an empty
    [current_doc], whose [total] is 0. *)
Fixpoint pop_front (separator_len _len : nat) (current_doc : list pystr)
    (total : nat) : list pystr * nat :=
  match current_doc with
  | [] => ([], total)
  | first :: rest =>
      if (chunk_overlap <? total)
         || ((chunk_size
              <? total + _len
                 + (if 0 <? length current_doc then separator_len else 0))
             && (0 <? total))
      then
        pop_front separator_len _len rest
          (total - (length first
                    + (if 1 <? length current_doc then separator_len
                       else 0)))
      else (current_doc, total)
  end.

(** The [for] loop of [_merge_splits]; [windows] collects the value of
    [current_doc] each time it is joined into a chunk. *)
Fixpoint merge_loop (separator_len : nat) (splits : list pystr)
    (windows : list (list pystr)) (current_doc : list pystr) (total : nat)
    : list (list pystr) :=
  match splits with
  | [] => windows ++ [current_doc]
  | d :: rest =>
      let _len := length d in
      if chunk_size
         <? total + _len
            + (if 0 <? length current_doc then separator_len else 0)
      then
        if 0 <? length current_doc then
          let '(popped, total1) :=
            pop_front separator_len _len current_doc total in
          let current1 := popped ++ [d] in
          merge_loop separator_len rest (windows ++ [current_doc]) current1
            (total1 + _len
             + (if 1 <? length current1 then separator_len else 0))
        else
          let current1 := current_doc ++ [d] in
          merge_loop separator_len rest windows current1
            (total + _len
             + (if 1 <? length current1 then separator_len else 0))
      else
        let current1 := current_doc ++ [d] in
        merge_loop separator_len rest windows current1
          (total + _len
           + (if 1 <? length current1 then separator_len else 0))
  end.

Definition merge_windows (splits : list pystr) (separator : pystr)
    : list (list pystr) :=
  merge_loop (length separator) splits [] [] 0.

Definition _merge_splits (splits : list pystr) (separator : pystr)
    : list pystr :=
  omap (λ docs, _join_docs docs separator) (merge_windows splits separator).

(** The loop of [_split_text] over the pieces; [recur] is the call on the
    separators that are left, if any are. *)
Fixpoint split_pieces (recur : option (pystr → list pystr))
    (splits _good_splits final_chunks : list pystr) : list pystr :=
  match splits with
  | [] =>
      match _good_splits with
      | [] => final_chunks
      | _ :: _ => final_chunks ++ _merge_splits _good_splits []
      end
  | s :: rest =>
      if length s <? chunk_size
      then split_pieces recur rest (_good_splits ++ [s]) final_chunks
      else
        let final1 :=
          match _good_splits with
          | [] => final_chunks
          | _ :: _ => final_chunks ++ _merge_splits _good_splits []
          end in
        let final2 :=
          match recur with
          | None => final1 ++ [s]
          | Some split_further => final1 ++ split_further s
          end in
        split_pieces recur rest [] final2
  end.

(** [_split_text(text, separators)]: the first separator that is empty or
    occurs in the text is used, the last one if none does. *)
Fixpoint _split_text (separators : list pystr) (text : pystr)
    : list pystr :=
  match separators with
  | [] => []
  | separator :: new_separators =>
      let go recur :=
        split_pieces recur (_split_text_with_regex text separator) [] [] in
      match separator, new_separators with
      | [], _ => go None
      | _ :: _, [] => go None
      | _ :: _, _ :: _ =>
          if occurs separator text
          then go (Some (_split_text new_separators))
          else _split_text new_separators text
      end
  end.

End Splitter.

(** [separators or ["\n\n", "\n", " ", ""]] *)
Definition separators_or_default (separators : list pystr) : list pystr :=
  match separators with
  | [] => [[NEWLINE; NEWLINE]; [NEWLINE]; [SPACE]; []]
  | _ :: _ => separators
  end.

(** [RecursiveCharacterTextSplitter(chunk_size, chunk_overlap,
    separators).split_text(text)], for [chunk_overlap <= chunk_size] (the
    constructor raises otherwise). *)
Definition split_text (chunk_size chunk_overlap : nat)
    (separators : list pystr) (text : pystr) : list pystr :=
  _split_text chunk_size chunk_overlap (separators_or_default separators)
    text.

(** [split_documents]: the chunks of each document, with its metadata. *)
Definition split_documents (chunk_size chunk_overlap : nat)
    (separators : list pystr) (documents : list Document) : list Document :=
  flat_map
    (λ doc,
       map (λ chunk, {| page_content := chunk; metadata := metadata doc |})
         (split_text chunk_size chunk_overlap separators (page_content doc)))
    documents.




(** The separator [_split_text] cuts a text at, with the separators it
    leaves for the pieces that are too long: the first separator that is
    empty or occurs in the text, the last one if none does. *)
Fixpoint chosen (separators : list pystr) (text : pystr)
    : option (pystr * list pystr) :=
  match separators with
  | [] => None
  | separator :: rest =>
      match separator, rest with
      | [], _ => Some ([], [])
      | _ :: _, [] => Some (separator, [])
      | _ :: _, _ :: _ =>
          if occurs separator text then Some (separator, rest)
          else chosen rest text
      end
  end.

(** The pieces of a text as [_split_text] takes them: runs of consecutive
    pieces shorter than [chunk_size], as long as they come, and between them
    the pieces that are not shorter. *)
Inductive run :=
| Short (pieces : list pystr)
| Long (piece : pystr).

Definition close_run (current : list pystr) : list run :=
  match current with
  | [] => []
  | _ :: _ => [Short current]
  end.

Fixpoint runs (chunk_size : nat) (pieces current : list pystr) : list run :=
  match pieces with
  | [] => close_run current
  | p :: rest =>
      if length p <? chunk_size then runs chunk_size rest (current ++ [p])
      else close_run current ++ Long p :: runs chunk_size rest []
  end.


End TextSplitter.

(** ** Files the loader gives up on *)

Definition supported_extensions : list pystr :=
  [py ".txt"; py ".pdf"; py ".docx"; py ".md"; py ".epub"].

(** A file the loader gives up on, with the log entry it leaves: an
    extension outside the supported ones, or a parser that raises. *)
Definition bad_file (env : Env) (file_path : pystr) (entry : log_entry)
    : Prop :=
  ((file_ext (file_at env file_path) ∉ supported_extensions)
   ∧ entry = unsupported_format file_path)
  ∨ (∃ msg, load_attempt env file_path = Some (Raises msg)
            ∧ entry = load_failed file_path msg).

(** States from which the loop of [query_stream] cannot be reached any
    more. *)
Definition past_loop (g : gen_state) : Prop :=
  match g with
  | GenCreated | GenInLoop _ _ _ => False
  | _ => True
  end.

(** A consumer that has just been handed [x] and goes on with [cmds]. *)
Definition then_consume (env : Env) (question : pystr)
    (x : gen_result * gen_state * World * KB) (cmds : list resume_cmd)
    : list gen_result * gen_state * World * KB :=
  let '(r, g1, w1, s1) := x in
  let '(rs, g2, w2, s2) := consume env question cmds g1 w1 s1 in
  (r :: rs, g2, w2, s2).

(** ** Sample inputs *)

Module Samples.

Definition sky : Document :=
  {| page_content := py "The sky is blue."; metadata := ∅ |}.

Definition grass : Document :=
  {| page_content := py "Grass is green."; metadata := ∅ |}.

Definition text_file (docs : list Document) : source_file :=
  {| file_ext := py ".txt";
     loader_load := fun _ => Ok docs;
     epub_read := Raises (py "not an epub") |}.

Definition broken_pdf : source_file :=
  {| file_ext := py ".pdf";
     loader_load := fun _ => Raises (py "EOF marker not found");
     epub_read := Raises (py "not an epub") |}.

Definition rich_text : source_file :=
  {| file_ext := py ".rtf";
     loader_load := fun _ => Raises (py "no loader");
     epub_read := Raises (py "not an epub") |}.

(** A book of four components: a chapter, an image, a chapter of markup and
    blanks only, and a second chapter. *)
Definition book : epub_book :=
  {| book_items :=
       [ {| item_is_document := true;
            item_content :=
              Ok (py "<html><body><h1>Chapter 1</h1>
<p>The  sky" ++ [12288%N] ++ py "is <b>blue</b>.</p></body></html>") |};
         {| item_is_document := false;
            item_content := Raises (py "invalid start byte") |};
         {| item_is_document := true;
            item_content := Ok (py "<html><body> <p> </p>
</body></html>") |};
         {| item_is_document := true;
            item_content := Ok (py "<p>Grass is green.</p>") |} ];
     book_dc :=
       Ok ([ {| dc_value := py "Colours";
                dc_str := py "('Colours', {})" |} ], []) |}.

Definition book_file : source_file :=
  {| file_ext := py ".epub";
     loader_load := fun _ => Raises (py "no loader");
     epub_read := Ok book |}.

Definition plain (s : pystr) : chunk :=
  {| content_attr := None; str_value := Some s |}.

(** Two increments with an empty chunk between them. *)
Definition sky_answer : llm_response :=
  RChunk (plain (py "The sky "))
    (RChunk (plain []) (RChunk (plain (py "is blue.")) RDone)).

(** A text file and a broken PDF under [docs]; a model that answers with
    [sky_answer]. *)
Definition env : Env :=
  {| file_at := fun p =>
       if bool_decide (p = py "docs/sky.txt") then text_file [sky]
       else if bool_decide (p = py "docs/notes.rtf") then rich_text
       else if bool_decide (p = py "docs/book.epub") then book_file
       else broken_pdf;
     glob_recursive := fun _ pattern =>
       if bool_decide (pattern = py "*.txt") then [py "docs/sky.txt"]
       else if bool_decide (pattern = py "*.pdf") then [py "docs/bad.pdf"]
       else [];
     glob_flat := fun _ pattern =>
       if bool_decide (pattern = py "*.txt") then [py "docs/sky.txt"]
       else [];
     path_exists := fun _ => true;
     split_documents := TextSplitter.split_documents;
     filter_complex_metadata := fun docs => docs;
     get_relevant_documents := fun entries _ => Ok entries;
     llm_stream := fun _ => sky_answer;
     qa_chain_call := fun entries _ _ =>
       Ok (py "The sky is blue.", Some entries);
     generation_time_2f := py "1.50" |}.

(** A model and a chain that answer with the history they were shown. *)
Definition echo_env : Env :=
  {| file_at := file_at env;
     glob_recursive := glob_recursive env;
     glob_flat := glob_flat env;
     path_exists := path_exists env;
     split_documents := split_documents env;
     filter_complex_metadata := filter_complex_metadata env;
     get_relevant_documents := get_relevant_documents env;
     llm_stream := fun prompt => RChunk (plain prompt) RDone;
     qa_chain_call := fun _ history _ =>
       Ok (join [NEWLINE] (map render_message history), None);
     generation_time_2f := py "0.10" |}.

(** A model that raises after its first increment. *)
Definition failing_env : Env :=
  {| file_at := file_at env;
     glob_recursive := glob_recursive env;
     glob_flat := glob_flat env;
     path_exists := path_exists env;
     split_documents := split_documents env;
     filter_complex_metadata := filter_complex_metadata env;
     get_relevant_documents := get_relevant_documents env;
     llm_stream := fun _ =>
       RChunk (plain (py "The sky ")) (RFail (py "connection reset"));
     qa_chain_call := fun _ _ _ => Raises (py "connection refused");
     generation_time_2f := py "0.10" |}.

Definition cfg : Config :=
  {| persist_directory := py "./chroma_db";
     collection_name := py "knowledge_base";
     chunk_size := 1000;
     chunk_overlap := 200;
     separators := [[NEWLINE; NEWLINE]; [NEWLINE]; [SPACE]; []];
     search_type := py "similarity";
     retrieval_k := 4;
     supported_formats := None;
     embeddings_model_name := py "BAAI/bge-small-zh-v1.5";
     ollama_model := py "qwen2.5:7b" |}.

(** No persist directory yet. *)
Definition empty_world : World := {| disk := ∅; log := [] |}.

(** A persist directory that holds one entry from an earlier build. *)
Definition built_world : World :=
  {| disk := {[ py "./chroma_db" :=
                  Database {[ py "knowledge_base" := [grass] ]} ]};
     log := [] |}.

(** A persist directory that exists but holds no [chroma.sqlite3]. *)
Definition bare_dir_world : World :=
  {| disk := {[ py "./chroma_db" := Bare ]}; log := [] |}.

Definition fresh_kb : KB :=
  {| config := cfg; embeddings := false; vectorstore := None; llm := false;
     qa_chain := false; memory := [] |}.

Definition loaded_kb : KB :=
  {| config := cfg; embeddings := true;
     vectorstore := Some (py "./chroma_db", py "knowledge_base");
     llm := false; qa_chain := false; memory := [] |}.

Definition turn (n : nat) : list message :=
  [HumanMessage (py "q" ++ str_of_nat n); AIMessage (py "a" ++ str_of_nat n)].

(** Seven completed turns, oldest first. *)
Definition seven_turns : list message :=
  turn 1 ++ turn 2 ++ turn 3 ++ turn 4 ++ turn 5 ++ turn 6 ++ turn 7.

Definition question : pystr := py "What color is the sky?".

End Samples.

(** A result that, if it is a [yield], carries a non-empty text. *)
Definition yields_text (r : gen_result) : Prop :=
  ∀ t d, r = Yield t d → t ≠ [].


(** ** More sample inputs *)

Module MoreSamples.

(** A book whose second chapter is not valid UTF-8. *)
Definition broken_book : epub_book :=
  {| book_items :=
       [ {| item_is_document := true;
            item_content := Ok (py "<p>Chapter 1</p>") |};
         {| item_is_document := true;
            item_content := Raises (py "invalid start byte") |};
         {| item_is_document := true;
            item_content := Ok (py "<p>Chapter 3</p>") |} ];
     book_dc :=
       Ok ([], [ {| dc_value := py "Anonymous";
                    dc_str := py "('Anonymous', {})" |} ]) |}.

Definition broken_book_file : source_file :=
  {| file_ext := py ".epub";
     loader_load := fun _ => Raises (py "no loader");
     epub_read := Ok broken_book |}.

(** The sample environment with [docs/broken.epub] added. *)
Definition env : Env :=
  {| file_at := fun p =>
       if bool_decide (p = py "docs/broken.epub") then broken_book_file
       else file_at Samples.env p;
     glob_recursive := glob_recursive Samples.env;
     glob_flat := glob_flat Samples.env;
     path_exists := path_exists Samples.env;
     split_documents := split_documents Samples.env;
     filter_complex_metadata := filter_complex_metadata Samples.env;
     get_relevant_documents := get_relevant_documents Samples.env;
     llm_stream := llm_stream Samples.env;
     qa_chain_call := qa_chain_call Samples.env;
     generation_time_2f := generation_time_2f Samples.env |}.

(** The sample environment with the book found under [docs] as well: the
    unreadable PDF comes between the text file and the book. *)
Definition shelf_env : Env :=
  {| file_at := file_at Samples.env;
     glob_recursive := fun _ pattern =>
       if bool_decide (pattern = py "*.txt") then [py "docs/sky.txt"]
       else if bool_decide (pattern = py "*.pdf") then [py "docs/bad.pdf"]
       else if bool_decide (pattern = py "*.epub") then [py "docs/book.epub"]
       else [];
     glob_flat := glob_flat Samples.env;
     path_exists := path_exists Samples.env;
     split_documents := split_documents Samples.env;
     filter_complex_metadata := filter_complex_metadata Samples.env;
     get_relevant_documents := get_relevant_documents Samples.env;
     llm_stream := llm_stream Samples.env;
     qa_chain_call := qa_chain_call Samples.env;
     generation_time_2f := generation_time_2f Samples.env |}.

End MoreSamples.

(** ** The interactive session and the command line *)

(** [str.lower()] on the letters A to Z.  The tests of [chat] compare the
    lowered line with words in which no letter is the lower case of a
    character outside ASCII, so that nothing more of [str.lower()] can be
    seen through them. *)
Definition lower_char (c : pychar) : pychar :=
  if ((65 <=? c) && (c <=? 90))%N then (c + 32)%N else c.

Definition lower (s : pystr) : pystr := map lower_char s.

Definition exit_words : list pystr := [py "exit"; py "quit"; py "退出"].

Definition clear_words : list pystr := [py "clear"; py "清除"].

(** What one call of [input()] does: it returns a line, or the user
    interrupts, or it raises an [Exception]. *)
Inductive input_event :=
| Line (text : pystr)
| Interrupt
| InputFails (msg : pystr).

(** How the loop of [chat] stands when the events run out: left through
    [break], or waiting at [input()]. *)
Inductive chat_end :=
| ChatLeft
| ChatWaiting.

Definition chat_error (msg : pystr) : log_entry :=
  LogError (py "对话错误: " ++ msg).

(** [chat()], over the events of its calls of [input()]. *)
Fixpoint chat (env : Env) (inputs : list input_event) (w : World) (s : KB)
    : chat_end * World * KB :=
  match inputs with
  | [] => (ChatWaiting, w, s)
  | Interrupt :: _ => (ChatLeft, w, s)
  | InputFails msg :: rest => chat env rest (add_log (chat_error msg) w) s
  | Line question :: rest =>
      if bool_decide (lower question ∈ exit_words) then (ChatLeft, w, s)
      else if bool_decide (lower question ∈ clear_words)
      then chat env rest w (set_memory [] s)
      else if negb (nonempty (strip question)) then chat env rest w s
      else
        let '(_, w1, s1) := query env question true w s in
        chat env rest w1 s1
  end.


(** Truth value of an optional string argument. *)
Definition given (a : option pystr) : bool :=
  match a with
  | Some text => nonempty text
  | None => false
  end.



(** A line that [chat] hands to [query]. *)
Definition asked (question : pystr) : Prop :=
  (lower question ∉ exit_words)
  ∧ (lower question ∉ clear_words)
  ∧ strip question ≠ [].

(** An event that ends [chat]. *)
Definition leaves (e : input_event) : Prop :=
  match e with
  | Line question => lower question ∈ exit_words
  | Interrupt => True
  | InputFails _ => False
  end.

(** ** The callbacks of the web interface *)

(** [history[-1] = entry]; [None] stands for the [IndexError] that the
    assignment raises on an empty list. *)
Definition set_last {A} (l : list A) (entry : A) : option (list A) :=
  match l with
  | [] => None
  | _ :: _ => Some (take (length l - 1) l ++ [entry])
  end.

(** [str(e)] for that [IndexError]. *)
Definition index_error : pystr := py "list assignment index out of range".

Definition ui_query_failed (msg : pystr) : pystr :=
  py "❌ 查询失败: " ++ msg.


(** [file_path.split('/')[-1]] *)
Fixpoint last_component (current path : pystr) : pystr :=
  match path with
  | [] => current
  | c :: r =>
      if (c =? 47)%N then last_component [] r
      else last_component (current ++ [c]) r
  end.

Definition question_or_default (question : pystr) : pystr :=
  if nonempty (strip question) then question else py "请分析这个文件".

Definition upload_label (file_path question : pystr) : pystr :=
  py "📎 已上传文件: " ++ last_component [] file_path ++ [NEWLINE]
  ++ question_or_default question.

Definition file_label (file_path question : pystr) : pystr :=
  py "📎 " ++ last_component [] file_path ++ [NEWLINE]
  ++ question_or_default question.

(** The question put to the model about an uploaded file: at most the first
    3000 characters of the file's text go into it. *)
Definition enhanced_question (question file_content : pystr) : pystr :=
  if nonempty (strip question)
  then py "基于以下文件内容回答问题：" ++ [NEWLINE; NEWLINE]
       ++ py "文件内容：" ++ [NEWLINE] ++ take 3000 file_content
       ++ [NEWLINE; NEWLINE] ++ py "问题：" ++ question
  else py "请分析并总结以下文件的主要内容：" ++ [NEWLINE; NEWLINE]
       ++ take 3000 file_content.

Definition file_not_loaded : pystr := py "❌ 文件加载失败，格式可能不支持".

Definition file_failed (msg : pystr) : pystr := py "❌ 文件处理失败: " ++ msg.

(** What the callbacks take from outside beyond [Env]: the model called on
    the text of an uploaded file, [str(self.kb.llm.invoke(...))], and the
    callbacks' own clock, read as [{generation_time:.2f}] by [handle_submit]
    and as [{elapsed_time:.1f}] in each pass of the streaming loop. *)
Record UiEnv := {
  llm_invoke : pystr → outcome pystr;
  elapsed_2f : pystr;
  elapsed_1f : nat → pystr
}.

(** [KnowledgeBaseUI.handle_submit(question, file_path, history)] *)
Definition handle_submit (env : Env) (ui : UiEnv) (question : pystr) (file_path : option pystr)
    (history : list (pystr * pystr)) (w : World) (s : KB)
    : list (pystr * pystr) * World * KB :=
  if negb (nonempty (strip question)) && negb (given file_path)
  then (history, w, s)
  else
    let no_file :=
      let '((answer, sources), w1, s1) := query env question false w s in
      match set_last history (question, answer) with
      | Some history1 => (history1, w1, s1)
      | None =>
          (history ++ [(question, ui_query_failed index_error)], w1, s1)
      end in
    match file_path with
    | None => no_file
    | Some [] => no_file
    | Some (c :: path) =>
        let file_path := c :: path in
        let history1 :=
          history
          ++ [(upload_label file_path question, py "📂 正在处理文件...")] in
        let '(doc, w1) := _load_document env file_path w in
        let '(shown, w2, s1) :=
          match doc with
          | [] => (file_not_loaded, w1, s)
          | _ :: _ =>
              let file_content :=
                join [NEWLINE; NEWLINE] (map page_content doc) in
              let '(w2, s1) := _initialize_llm w1 s in
              match
                llm_invoke ui (enhanced_question question file_content)
              with
              | Ok response =>
                  (response ++ time_info (elapsed_2f ui), w2, s1)
              | Raises msg => (file_failed msg, w2, s1)
              end
          end in
        match set_last history1 (file_label file_path question, shown) with
        | Some history2 => (history2, w2, s1)
        | None =>
            (history1 ++ [(question, ui_query_failed index_error)], w2, s1)
        end
    end.

(** ["**生成时间**" in text]: [startswith] is [str.startswith], [contains]
    is the [in] of strings. *)
Fixpoint startswith (text word : pystr) : bool :=
  match word, text with
  | [], _ => true
  | _ :: _, [] => false
  | a :: word', c :: text' => (a =? c)%N && startswith text' word'
  end.

Fixpoint contains (word text : pystr) : bool :=
  match text with
  | [] => startswith [] word
  | _ :: rest => startswith text word || contains word rest
  end.

Definition time_marker : pystr := py "**生成时间**".

Definition searching : pystr := py "🤔 正在检索知识库...".

(** [f"\n\n⏱️ *生成中... {elapsed_time:.1f}秒*"] *)
Definition progress (elapsed : pystr) : pystr :=
  [NEWLINE; NEWLINE] ++ py "⏱️ *生成中... " ++ elapsed ++ py "秒*".

(** How a callback that is a generator ends. *)
Inductive ui_end :=
| UiReturns
| UiRaises (e : exn).

(** The loop [for chunk, docs in self.kb.query_stream(question)] of
    [query_kb_stream], iterated to its end, inside the [try] of the
    callback: the lists the callback yields from here on, in order.  [fuel]
    bounds the passes; [pass] counts them. *)
Fixpoint stream_passes (env : Env) (ui : UiEnv) (question : pystr)
    (fuel pass : nat) (answer_parts : list pystr)
    (history : list (pystr * pystr)) (g : gen_state) (w : World) (s : KB)
    : option (list (list (pystr * pystr)) * ui_end * World * KB) :=
  match fuel with
  | 0 => None
  | S fuel' =>
      let '(r, g1, w1, s1) := query_stream env question false Next g w s in
      match r with
      | StopIteration => Some ([], UiReturns, w1, s1)
      | Propagates e =>
          if is_Exception e
          then Some ([history ++ [(question, ui_query_failed (exn_str e))]],
                     UiReturns, w1, s1)
          else Some ([], UiRaises e, w1, s1)
      | Yield chunk docs =>
          let answer_parts1 := answer_parts ++ [chunk] in
          let current_answer := concat answer_parts1 in
          let shown :=
            if contains time_marker current_answer then current_answer
            else current_answer ++ progress (elapsed_1f ui pass) in
          match set_last history (question, shown) with
          | None =>
              Some ([history ++ [(question, ui_query_failed index_error)]],
                    UiReturns, w1, s1)
          | Some history1 =>
              match
                stream_passes env ui question fuel' (S pass) answer_parts1
                  history1 g1 w1 s1
              with
              | Some (later, e, w2, s2) => Some (history1 :: later, e, w2, s2)
              | None => None
              end
          end
      end
  end.

(** [KnowledgeBaseUI.query_kb_stream(question, history)], iterated to its
    end: every list it yields, in order. *)
Definition query_kb_stream (env : Env) (ui : UiEnv) (question : pystr)
    (history : list (pystr * pystr)) (fuel : nat) (w : World) (s : KB)
    : option (list (list (pystr * pystr)) * ui_end * World * KB) :=
  if negb (nonempty (strip question)) then Some ([history], UiReturns, w, s)
  else
    let history1 := history ++ [(question, searching)] in
    match
      stream_passes env ui question fuel 0 [] history1 GenCreated w s
    with
    | Some (later, e, w1, s1) => Some (history1 :: later, e, w1, s1)
    | None => None
    end.

(** The callbacks' sample clock and model. *)
Module UiSamples.

Definition ui : UiEnv :=
  {| llm_invoke := fun _ => Ok (py "A note on colours.");
     elapsed_2f := py "2.25";
     elapsed_1f := fun pass => str_of_nat pass ++ py ".5" |}.

Definition earlier : list (pystr * pystr) :=
  [(py "Is grass green?", py "Yes.")].

End UiSamples.

(** * Properties *)

(** ** Queries without an index *)

Lemma init_without_directory cfg w :
  disk w !! persist_directory cfg = None →
  vectorstore (init cfg w).2 = None.
Proof.
  intros Hdir. unfold init, _try_load_existing_knowledge_base, dir_exists.
  cbn [config]. rewrite Hdir. rewrite bool_decide_eq_false_2; [done|].
  intros [x Hx]. discriminate.
Qed.

Lemma create_qa_chain_memory w s :
  memory (_create_qa_chain w s).2 = memory s.
Proof.
  unfold _create_qa_chain, _initialize_llm.
  by destruct (qa_chain s), (llm s).
Qed.

Lemma create_qa_chain_vectorstore w s :
  vectorstore (_create_qa_chain w s).2 = vectorstore s.
Proof.
  unfold _create_qa_chain, _initialize_llm.
  by destruct (qa_chain s), (llm s).
Qed.

Lemma create_qa_chain_disk w s : disk (_create_qa_chain w s).1 = disk w.
Proof.
  unfold _create_qa_chain, _initialize_llm.
  by destruct (qa_chain s), (llm s).
Qed.

(** The log after [_create_qa_chain]: one record more when the model is
    connected by this call, none otherwise. *)
Lemma create_qa_chain_log w s :
  log (_create_qa_chain w s).1
  = log w
    ++ (if qa_chain s || llm s then []
        else [ollama_connected (config s)]).
Proof.
  unfold _create_qa_chain, _initialize_llm.
  destruct (qa_chain s), (llm s); cbn [fst add_log log orb];
    by rewrite ?app_nil_r.
Qed.

(** The blocking [query] with an index, in terms of the chain's call. *)
Lemma query_with_index env question show_sources w s entries :
  index_entries w s = Some entries →
  query env question show_sources w s
  = match qa_chain_call env entries (memory s) question with
    | Ok (answer, source_documents) =>
        ((answer ++ time_info (generation_time_2f env),
          default [] source_documents),
         (_create_qa_chain w s).1,
         add_turn question answer (_create_qa_chain w s).2)
    | Raises msg =>
        ((query_failed msg, []),
         add_log (LogError (query_failed msg)) (_create_qa_chain w s).1,
         (_create_qa_chain w s).2)
    end.
Proof.
  intros Hidx. unfold query. rewrite Hidx. unfold chain_history.
  pose proof (create_qa_chain_memory w s) as Hmem.
  destruct (_create_qa_chain w s) as [w1 s1]. cbn [fst snd] in *.
  rewrite Hmem.
  by destruct (qa_chain_call env entries (memory s) question)
    as [[answer sources]|msg].
Qed.

(** C8.  When the object has no vector store, the blocking [query] returns
    the "not initialized" message with an empty source list, and
    [query_stream] yields that message with an empty source list and then
    stops; neither raises, and neither changes the object or the world. *)
Theorem query_without_index env question show_sources w s :
  vectorstore s = None →
  query env question show_sources w s = ((not_initialized, []), w, s)
  ∧ consume env question [Next; Next] GenCreated w s
    = ([Yield not_initialized []; StopIteration], GenFinished, w, s).
Proof.
  intros Hnone. unfold query, consume, query_stream, index_entries.
  rewrite Hnone. done.
Qed.

Lemma query_without_index_witness :
  vectorstore Samples.fresh_kb = None
  ∧ query Samples.env Samples.question true Samples.empty_world
      Samples.fresh_kb
    = ((not_initialized, []), Samples.empty_world, Samples.fresh_kb)
  ∧ consume Samples.env Samples.question [Next; Next] GenCreated
      Samples.empty_world Samples.fresh_kb
    = ([Yield not_initialized []; StopIteration], GenFinished,
       Samples.empty_world, Samples.fresh_kb).
Proof.
  split; [reflexivity|].
  apply (query_without_index Samples.env Samples.question true
           Samples.empty_world Samples.fresh_kb).
  reflexivity.
Defined.

(** ** The answer of the blocking query *)

Lemma time_info_nonempty t : time_info t ≠ [].
Proof. unfold time_info. cbn [app]. discriminate. Qed.

Lemma startswith_app (word rest : pystr) :
  startswith (word ++ rest) word = true.
Proof.
  induction word as [|a word IH]; [by destruct rest|].
  cbn [app startswith]. by rewrite N.eqb_refl.
Qed.

Lemma contains_app (word before rest : pystr) :
  contains word (before ++ word ++ rest) = true.
Proof.
  induction before as [|c before IH].
  - cbn [app]. destruct (word ++ rest) as [|c t] eqn:Heq.
    + by destruct word.
    + cbn [contains]. rewrite <- Heq. by rewrite startswith_app.
  - cbn [app contains]. rewrite IH. apply orb_true_r.
Qed.

Lemma time_info_marked t :
  ∃ before rest, time_info t = before ++ time_marker ++ rest.
Proof.
  exists ([NEWLINE; NEWLINE] ++ py "⏱️ "), (py ": " ++ t ++ py "秒").
  unfold time_info.
  change (py "⏱️ **生成时间**: ") with (py "⏱️ " ++ time_marker ++ py ": ").
  by rewrite <- !(assoc_L (++)).
Qed.

Lemma contains_time_info (text : pystr) t :
  contains time_marker (text ++ time_info t) = true.
Proof.
  destruct (time_info_marked t) as (before & rest & ->).
  rewrite (assoc_L (++) text). apply contains_app.
Qed.

Lemma app_ne_self (answer suffix : pystr) :
  suffix ≠ [] → answer ++ suffix ≠ answer.
Proof.
  intros Hne Heq. apply Hne.
  apply (app_inv_head answer). by rewrite app_nil_r.
Qed.

(** C4, as the code has it.  A blocking [query] whose chain call returns
    hands back a pair of a text and the source list, and nothing else.  The
    text is the chain's answer followed by the time line: it is never the
    answer itself, and the test by which the web interface recognises a
    time line, [**生成时间**] occurring in the text, succeeds on it.  The
    sources are the chain's.  The memory gains one turn, which holds the
    answer without the time line; the log gains the record of the model's
    connection when this call is the first to need the model. *)
Theorem query_appends_time_to_answer env question show_sources w s entries
    answer source_documents :
  index_entries w s = Some entries →
  qa_chain_call env entries (memory s) question
    = Ok (answer, source_documents) →
  let r := query env question show_sources w s in
  r.1.1
  = (answer ++ time_info (generation_time_2f env),
     default [] source_documents)
  ∧ r.1.1.1 ≠ answer
  ∧ contains time_marker r.1.1.1 = true
  ∧ memory r.2 = memory s ++ [HumanMessage question; AIMessage answer]
  ∧ log r.1.2
    = log w
      ++ (if qa_chain s || llm s then [] else [ollama_connected (config s)])
  ∧ disk r.1.2 = disk w.
Proof.
  intros Hidx Hcall r. subst r.
  rewrite (query_with_index env question show_sources w s entries Hidx).
  rewrite Hcall. cbn [fst snd add_turn set_memory memory].
  split; [done|].
  split; [apply app_ne_self, time_info_nonempty|].
  split; [apply contains_time_info|].
  split; [by rewrite create_qa_chain_memory|].
  split; [apply create_qa_chain_log|apply create_qa_chain_disk].
Qed.

Lemma query_appends_time_to_answer_witness :
  let r := query Samples.env Samples.question false Samples.built_world
             Samples.loaded_kb in
  r.1.1
  = (py "The sky is blue." ++ time_info (generation_time_2f Samples.env),
     default [] (Some [Samples.grass]))
  ∧ r.1.1.1 ≠ py "The sky is blue."
  ∧ contains time_marker r.1.1.1 = true
  ∧ memory r.2
    = memory Samples.loaded_kb
      ++ [HumanMessage Samples.question; AIMessage (py "The sky is blue.")]
  ∧ log r.1.2
    = log Samples.built_world
      ++ (if qa_chain Samples.loaded_kb || llm Samples.loaded_kb then []
          else [ollama_connected (config Samples.loaded_kb)])
  ∧ disk r.1.2 = disk Samples.built_world.
Proof.
  apply (query_appends_time_to_answer Samples.env Samples.question false
           Samples.built_world Samples.loaded_kb [Samples.grass]
           (py "The sky is blue.") (Some [Samples.grass])).
  - vm_compute. reflexivity.
  - reflexivity.
Defined.

(** C4, as the specification has it, fails: the text returned for the sample
    question is not the chain's answer but the answer with the time line
    appended. *)
Lemma query_text_differs_from_answer :
  qa_chain_call Samples.env [Samples.grass] [] Samples.question
    = Ok (py "The sky is blue.", Some [Samples.grass])
  ∧ (query Samples.env Samples.question false Samples.built_world
       Samples.loaded_kb).1.1.1
    = py "The sky is blue." ++ [NEWLINE; NEWLINE]
      ++ py "⏱️ **生成时间**: 1.50秒"
  ∧ (query Samples.env Samples.question false Samples.built_world
       Samples.loaded_kb).1.1.1
    ≠ py "The sky is blue.".
Proof.
  split; [reflexivity|]. split; [vm_compute; reflexivity|].
  vm_compute. discriminate.
Qed.

(** ** The streaming generator *)

(** The first resumption of the generator, in terms of the state
    [_create_qa_chain] leaves. *)
Lemma query_stream_first env q show w s :
  query_stream env q show Next GenCreated w s
  = match index_entries w s with
    | None => (Yield not_initialized [], GenAtNotInitialized, w, s)
    | Some entries =>
        match get_relevant_documents env entries q with
        | Raises msg =>
            stream_failed msg (_create_qa_chain w s).1
              (_create_qa_chain w s).2
        | Ok docs =>
            stream_loop env q docs []
              (llm_stream env
                 (format_prompt (context_str docs)
                    (chat_history_str (memory s)) q))
              (_create_qa_chain w s).1 (_create_qa_chain w s).2
        end
    end.
Proof.
  cbn [query_stream]. destruct (index_entries w s) as [entries|]; [|done].
  pose proof (create_qa_chain_memory w s) as Hmem.
  destruct (_create_qa_chain w s) as [w1 s1]. cbn [fst snd] in *.
  by rewrite Hmem.
Qed.

Lemma past_loop_step env q show cmd g w s :
  past_loop g →
  past_loop (query_stream env q show cmd g w s).1.1.2
  ∧ memory (query_stream env q show cmd g w s).2 = memory s.
Proof.
  destruct g, cmd as [|e]; try done; cbn; intros _;
    destruct (is_Exception e); done.
Qed.

Lemma consume_past_loop env q cmds g w s :
  past_loop g → memory (consume env q cmds g w s).2 = memory s.
Proof.
  revert g w s. induction cmds as [|cmd cmds IH]; intros g w s Hg; [done|].
  cbn [consume].
  destruct (past_loop_step env q false cmd g w s Hg) as [Hg' Hm].
  destruct (query_stream env q false cmd g w s) as [[[r g1] w1] s1].
  specialize (IH g1 w1 s1 Hg').
  destruct (consume env q cmds g1 w1 s1) as [[[rs g2] w2] s2].
  cbn in *. congruence.
Qed.

Lemma consume_cons env q cmd cmds g w s :
  consume env q (cmd :: cmds) g w s
  = then_consume env q (query_stream env q false cmd g w s) cmds.
Proof. done. Qed.

Lemma then_consume_past_loop env q r g w s cmds :
  past_loop g → memory (then_consume env q (r, g, w, s) cmds).2 = memory s.
Proof.
  intros Hg. unfold then_consume.
  pose proof (consume_past_loop env q cmds g w s Hg) as Hm.
  destruct (consume env q cmds g w s) as [[[rs g2] w2] s2]. done.
Qed.

Lemma then_consume_memory env q r g w s cmds :
  memory (then_consume env q (r, g, w, s) cmds).2
  = memory (consume env q cmds g w s).2.
Proof.
  unfold then_consume.
  by destruct (consume env q cmds g w s) as [[[rs g2] w2] s2].
Qed.

Lemma stream_loop_memory env q docs cmds response :
  ∀ answer_chunks w s,
  memory (then_consume env q
            (stream_loop env q docs answer_chunks response w s) cmds).2
  = if response_completes response
       && bool_decide (length (response_texts response) ≤ length cmds)
       && forallb is_next (take (length (response_texts response)) cmds)
    then memory s
         ++ [HumanMessage q;
             AIMessage (concat (answer_chunks ++ response_texts response))]
    else memory s.
Proof.
  revert cmds.
  induction response as [|msg|c rest IH]; intros cmds acc w s.
  - cbn [stream_loop response_texts response_completes].
    rewrite then_consume_past_loop by done.
    cbn. by rewrite app_nil_r.
  - cbn [stream_loop response_completes]. unfold stream_failed.
    by rewrite then_consume_past_loop.
  - cbn [stream_loop response_texts response_completes].
    destruct (chunk_text c) as [t|]; [|apply IH].
    rewrite then_consume_memory.
    destruct cmds as [|[|e] cmds].
    + cbn. by rewrite andb_false_r.
    + rewrite consume_cons. cbn [query_stream]. rewrite IH.
      cbn [length take forallb is_next]. rewrite andb_true_l.
      rewrite <- (assoc_L (++) acc [t]). cbn [app].
      destruct (response_completes rest); [|done]. cbn [andb].
      destruct (forallb is_next (take (length (response_texts rest)) cmds));
        [|by rewrite !andb_false_r].
      rewrite !andb_true_r.
      destruct (decide (length (response_texts rest) ≤ length cmds)).
      * rewrite !bool_decide_eq_true_2; [done|lia|done].
      * rewrite !bool_decide_eq_false_2; [done|lia|done].
    + rewrite consume_cons. cbn [query_stream].
      cbn [length take forallb is_next]. rewrite andb_false_l, andb_false_r.
      destruct (is_Exception e); unfold stream_failed;
        by rewrite then_consume_past_loop.
Qed.

(** C2.  The memory after any run of [query_stream(question)], whatever the
    consumer sends (pulls, an early stop, [close()], a thrown exception):
    it is the memory before the run, unless the model's response ends without
    raising and the consumer's first [n + 1] commands are all pulls, [n]
    being the number of increments; then, and whatever follows, it is the
    memory before the run with one human message, the question, and one AI
    message, the concatenation of all the increments.  So a response that
    raises, or a consumer that stops before the pull after the last
    increment, leaves the memory unchanged, and no partial answer is ever
    stored. *)
Theorem query_stream_memory env question cmds w s :
  memory (consume env question cmds GenCreated w s).2
  = match stream_response env question w s with
    | Some (docs, response) =>
        if response_completes response
           && bool_decide (length (response_texts response) < length cmds)
           && forallb is_next
                (take (S (length (response_texts response))) cmds)
        then memory s
             ++ [HumanMessage question;
                 AIMessage (concat (response_texts response))]
        else memory s
    | None => memory s
    end.
Proof.
  assert (Hnone : match stream_response env question w s with
                  | Some (_, response) =>
                      (if response_completes response
                          && bool_decide
                               (length (response_texts response) < 0)
                          && forallb is_next
                               (take (S (length (response_texts response)))
                                  [])
                       then memory s
                            ++ [HumanMessage question;
                                AIMessage
                                  (concat (response_texts response))]
                       else memory s) = memory s
                  | None => True
                  end).
  { destruct (stream_response env question w s) as [[docs response]|];
      [|done].
    rewrite bool_decide_eq_false_2 by lia. by rewrite andb_false_r. }
  destruct cmds as [|[|e] cmds].
  - cbn [consume length].
    destruct (stream_response env question w s) as [[docs response]|]; done.
  - clear Hnone. rewrite consume_cons. unfold stream_response.
    rewrite query_stream_first.
    destruct (index_entries w s) as [entries|];
      [|by rewrite then_consume_past_loop].
    destruct (get_relevant_documents env entries question) as [docs|msg].
    + rewrite stream_loop_memory, !create_qa_chain_memory.
      cbn [length take forallb is_next app]. rewrite andb_true_l.
      destruct (response_completes _); [|done]. cbn [andb].
      destruct (forallb is_next _); [|by rewrite !andb_false_r].
      rewrite !andb_true_r.
      match goal with |- context [bool_decide (?a ≤ ?b)] =>
        destruct (decide (a ≤ b)) end.
      * rewrite !bool_decide_eq_true_2; [done|lia|done].
      * rewrite !bool_decide_eq_false_2; [done|lia|done].
    + unfold stream_failed. rewrite then_consume_past_loop by done.
      apply create_qa_chain_memory.
  - clear Hnone. rewrite consume_cons. cbn [query_stream].
    rewrite then_consume_past_loop by done.
    destruct (stream_response env question w s) as [[docs response]|];
      [|done].
    cbn [take forallb is_next]. by rewrite andb_false_r.
Qed.

Lemma consume_finished env q k w s :
  consume env q (replicate k Next) GenFinished w s
  = (replicate k StopIteration, GenFinished, w, s).
Proof.
  induction k as [|k IH]; [done|].
  cbn [replicate]. rewrite consume_cons. cbn [query_stream then_consume].
  by rewrite IH.
Qed.


Lemma stream_loop_drained env q docs response :
  response_completes response = true →
  ∀ answer_chunks w s,
  then_consume env q (stream_loop env q docs answer_chunks response w s)
    (replicate (S (length (response_texts response))) Next)
  = (map (λ t, Yield t docs) (response_texts response)
     ++ [Yield (time_info (generation_time_2f env)) docs; StopIteration],
     GenFinished, w,
     add_turn q (concat (answer_chunks ++ response_texts response)) s).
Proof.
  intros Hok.
  induction response as [|msg|c rest IH]; intros acc w s; [|done|].
  - cbn [stream_loop response_texts length replicate then_consume consume
         query_stream map app].
    by rewrite app_nil_r.
  - cbn [stream_loop response_texts]. cbn [response_completes] in Hok.
    destruct (chunk_text c) as [t|]; [|by apply IH].
    cbn [length replicate then_consume].
    rewrite consume_cons. cbn [query_stream]. rewrite (IH Hok).
    cbn [map app]. by rewrite <- (assoc_L (++) acc [t]).
Qed.

(** C10.  When the response ends without raising, the consumer that pulls to
    the end sees the increments in order, each with the retrieved documents,
    then the time line, then the end of the generator.  The memory then
    holds one turn more than before: the question, and an AI message that is
    the concatenation of exactly those increments, without the time line.
    The log gains the record of the model's connection when this run is the
    first to need the model; the disk is as it was. *)
Theorem query_stream_records_yielded_text env question w s docs response :
  stream_response env question w s = Some (docs, response) →
  response_completes response = true →
  let r :=
    consume env question
      (replicate (S (S (length (response_texts response)))) Next)
      GenCreated w s in
  r.1.1.1
  = map (λ t, Yield t docs) (response_texts response)
    ++ [Yield (time_info (generation_time_2f env)) docs; StopIteration]
  ∧ r.1.1.2 = GenFinished
  ∧ memory r.2
    = memory s
      ++ [HumanMessage question;
          AIMessage (concat (response_texts response))]
  ∧ log r.1.2
    = log w
      ++ (if qa_chain s || llm s then [] else [ollama_connected (config s)])
  ∧ disk r.1.2 = disk w.
Proof.
  intros Hresp Hok r. subst r. unfold stream_response in Hresp.
  cbn [replicate]. rewrite consume_cons, query_stream_first.
  destruct (index_entries w s) as [entries|]; [|done].
  destruct (get_relevant_documents env entries question) as [docs'|msg];
    [|done].
  injection Hresp as -> <-.
  rewrite (stream_loop_drained env question docs _ Hok [] _ _).
  cbn [fst snd add_turn set_memory memory app].
  rewrite create_qa_chain_memory, create_qa_chain_log, create_qa_chain_disk.
  done.
Qed.

Lemma query_stream_records_yielded_text_witness :
  let r :=
    consume Samples.env Samples.question
      (replicate (S (S (length (response_texts Samples.sky_answer)))) Next)
      GenCreated Samples.built_world Samples.loaded_kb in
  r.1.1.1
  = map (λ t, Yield t [Samples.grass]) (response_texts Samples.sky_answer)
    ++ [Yield (time_info (generation_time_2f Samples.env)) [Samples.grass];
        StopIteration]
  ∧ r.1.1.2 = GenFinished
  ∧ memory r.2
    = memory Samples.loaded_kb
      ++ [HumanMessage Samples.question;
          AIMessage (concat (response_texts Samples.sky_answer))]
  ∧ log r.1.2
    = log Samples.built_world
      ++ (if qa_chain Samples.loaded_kb || llm Samples.loaded_kb then []
          else [ollama_connected (config Samples.loaded_kb)])
  ∧ disk r.1.2 = disk Samples.built_world.
Proof.
  apply (query_stream_records_yielded_text Samples.env Samples.question
           Samples.built_world Samples.loaded_kb [Samples.grass]
           Samples.sky_answer).
  - vm_compute. reflexivity.
  - reflexivity.
Defined.

(** The sample runs: the increments of [sky_answer] are the two non-empty
    texts; a consumer that pulls four times has the whole answer in memory; a
    consumer that closes the generator after the two increments has
    nothing there, and neither has any consumer of a response that raises. *)
Example sky_answer_texts :
  response_texts Samples.sky_answer = [py "The sky "; py "is blue."].
Proof. reflexivity. Qed.

Example completed_stream_memory :
  memory (consume Samples.env Samples.question [Next; Next; Next; Next]
            GenCreated Samples.built_world Samples.loaded_kb).2
  = [HumanMessage Samples.question; AIMessage (py "The sky is blue.")].
Proof. vm_compute. reflexivity. Qed.

Example closed_stream_memory :
  memory (consume Samples.env Samples.question
            [Next; Next; Throw GeneratorExit] GenCreated
            Samples.built_world Samples.loaded_kb).2
  = [].
Proof. vm_compute. reflexivity. Qed.

Example failed_stream_memory :
  (consume Samples.failing_env Samples.question [Next; Next; Next]
     GenCreated Samples.built_world Samples.loaded_kb).1.1.1
  = [Yield (py "The sky ") [Samples.grass];
     Yield (py "查询失败: connection reset") [];
     StopIteration]
  ∧ memory (consume Samples.failing_env Samples.question [Next; Next; Next]
              GenCreated Samples.built_world Samples.loaded_kb).2
    = [].
Proof. split; vm_compute; reflexivity. Qed.

(** ** History shown to the model *)

Lemma last_six_length h : length (last_six h) = min 6 (length h).
Proof. unfold last_six. rewrite length_drop. lia. Qed.

Lemma last_six_suffix h : last_six h `suffix_of` h.
Proof. apply suffix_drop. Qed.

Lemma last_six_drops_oldest m h :
  6 ≤ length h → last_six (m :: h) = last_six h.
Proof.
  intros Hlen. unfold last_six. cbn [length].
  replace (S (length h) - 6) with (S (length h - 6)) by lia. done.
Qed.

(** The prompt of the streaming path shows the model the last six messages
    of the memory and no more. *)
Lemma query_stream_prompt env question show_sources w s entries docs :
  index_entries w s = Some entries →
  get_relevant_documents env entries question = Ok docs →
  query_stream env question show_sources Next GenCreated w s
  = stream_loop env question docs []
      (llm_stream env
         (format_prompt (context_str docs)
            (join [NEWLINE] (map render_message (last_six (memory s))))
            question))
      (_create_qa_chain w s).1 (_create_qa_chain w s).2.
Proof.
  intros Hidx Hdocs. rewrite query_stream_first, Hidx, Hdocs. done.
Qed.

(** C3 at a session of seven completed turns, with a chain and a model that
    answer with the history they were shown.  The chain of the blocking
    [query] is shown all fourteen messages, the oldest turn included; the
    model of [query_stream] is shown the last six messages only. *)
Theorem query_history_exceeds_cap :
  let s := set_memory Samples.seven_turns Samples.loaded_kb in
  (query Samples.echo_env Samples.question false Samples.built_world
     s).1.1.1
  = join [NEWLINE] (map render_message Samples.seven_turns)
    ++ time_info (py "0.10")
  ∧ length (chain_history (memory s)) = 14
  ∧ (consume Samples.echo_env Samples.question [Next] GenCreated
       Samples.built_world s).1.1.1
    = [Yield
         (format_prompt (context_str [Samples.grass])
            (join [NEWLINE]
               (map render_message
                  (Samples.turn 5 ++ Samples.turn 6 ++ Samples.turn 7)))
            Samples.question)
         [Samples.grass]].
Proof.
  split; [vm_compute; reflexivity|]. split; [reflexivity|].
  vm_compute; reflexivity.
Qed.

(** ** Loader failures *)

Lemma unsupported_load_attempt env file_path :
  file_ext (file_at env file_path) ∉ supported_extensions →
  load_attempt env file_path = None.
Proof.
  intros Hext. unfold load_attempt, supported_extensions in *.
  repeat (rewrite bool_decide_eq_false_2;
          [|intros Heq; apply Hext; rewrite Heq; set_solver]).
  done.
Qed.

Lemma load_document_bad env file_path entry w :
  bad_file env file_path entry →
  _load_document env file_path w = ([], add_log entry w).
Proof.
  unfold _load_document.
  intros [[Hext ->]|(msg & Hatt & ->)].
  - by rewrite unsupported_load_attempt.
  - by rewrite Hatt.
Qed.

Lemma load_document_documents env file_path w w' :
  (_load_document env file_path w).1 = (_load_document env file_path w').1.
Proof.
  unfold _load_document.
  by destruct (load_attempt env file_path) as [[docs|msg]|].
Qed.

Lemma load_document_disk env file_path w :
  disk (_load_document env file_path w).2 = disk w.
Proof.
  unfold _load_document.
  by destruct (load_attempt env file_path) as [[docs|msg]|].
Qed.



Lemma load_all_documents env files documents w w' :
  (load_all env files documents w).1 = (load_all env files documents w').1.
Proof.
  revert documents w w'.
  induction files as [|f files IH]; intros documents w w'; [done|].
  cbn [load_all].
  pose proof (load_document_documents env f w w') as Hd.
  destruct (_load_document env f w) as [docs w1].
  destruct (_load_document env f w') as [docs' w1'].
  cbn [fst] in Hd. subst docs'.
  destruct (bool_decide (docs ≠ [])); apply IH.
Qed.

Lemma load_all_disk env files documents w :
  disk (load_all env files documents w).2 = disk w.
Proof.
  revert documents w.
  induction files as [|f files IH]; intros documents w; [done|].
  cbn [load_all].
  pose proof (load_document_disk env f w) as Hd.
  destruct (_load_document env f w) as [docs w1]. cbn [snd] in Hd.
  destruct (bool_decide (docs ≠ [])); rewrite IH; done.
Qed.





Example load_unsupported_file :
  _load_document Samples.env (py "docs/notes.rtf") Samples.empty_world
  = ([], {| disk := ∅;
            log := [LogWarning (py "不支持的文件格式: docs/notes.rtf")] |}).
Proof. vm_compute. reflexivity. Qed.

Example load_broken_file :
  _load_document Samples.env (py "docs/bad.pdf") Samples.empty_world
  = ([], {| disk := ∅;
            log := [LogError
                      (py "加载文件失败 docs/bad.pdf: EOF marker not found")]
         |}).
Proof. vm_compute. reflexivity. Qed.

(** ** The persisted store across builds *)

Lemma collection_entries_from_documents documents dir name d :
  collection_entries dir name (from_documents documents dir name d)
  = collection_entries dir name d ++ documents.
Proof.
  unfold from_documents, collection_entries at 1.
  rewrite lookup_insert_eq. by rewrite lookup_insert_eq.
Qed.


Lemma collection_entries_open dir name d :
  collection_entries dir name (chroma_open dir name d)
  = collection_entries dir name d.
Proof.
  unfold chroma_open, collection_entries at 1.
  rewrite lookup_insert_eq. by rewrite lookup_insert_eq.
Qed.

Lemma marker_exists_dir_exists dir d :
  marker_exists dir d = true → dir_exists dir d = true.
Proof.
  unfold marker_exists, dir_exists. intros H.
  apply bool_decide_eq_true_2. destruct (d !! dir); [done|discriminate].
Qed.


(** *** The calls that can raise *)

Lemma from_documents_returns documents dir name s d d' :
  Chroma_from_documents documents dir name s d = Ok d' →
  d' = from_documents documents dir name d.
Proof.
  unfold Chroma_from_documents.
  destruct (d !! dir) as [[|db|msg]|]; try (by intros [= <-]).
  destruct (client_on dir s); [done|by intros [= <-]].
Qed.





(** *** Loading the embedding model *)

Lemma initialize_embeddings_frame w s :
  disk (_initialize_embeddings w s).1 = disk w
  ∧ config (_initialize_embeddings w s).2 = config s
  ∧ vectorstore (_initialize_embeddings w s).2 = vectorstore s
  ∧ memory (_initialize_embeddings w s).2 = memory s.
Proof. unfold _initialize_embeddings. by destruct (embeddings s). Qed.

Lemma initialize_embeddings_log w s :
  log (_initialize_embeddings w s).1
  = log w ++ (if embeddings s then [] else [embeddings_loaded (config s)]).
Proof.
  unfold _initialize_embeddings.
  destruct (embeddings s); cbn [fst add_log log]; by rewrite ?app_nil_r.
Qed.

Lemma initialize_embeddings_again w s :
  embeddings s = true → _initialize_embeddings w s = (w, s).
Proof. intros H. unfold _initialize_embeddings. by rewrite H. Qed.

(** *** What a build does *)

(** A build from the point where the files are known, when they give a
    document. *)
Lemma ingest_result env files w s :
  let splits :=
    filter_complex_metadata env
      (split_documents env (chunk_size (config s))
         (chunk_overlap (config s)) (separators (config s))
         (load_all env files [] w).1) in
  (load_all env files [] w).1 ≠ [] →
  ingest env files w s
  = match
      Chroma_from_documents splits (persist_directory (config s))
        (collection_name (config s)) s (disk w)
    with
    | Ok d =>
        (Ok tt,
         add_log (build_done (length splits))
           (set_disk d (load_all env files [] w).2),
         set_vectorstore
           (Some (persist_directory (config s), collection_name (config s)))
           s)
    | Raises msg => (Raises msg, (load_all env files [] w).2, s)
    end.
Proof.
  intros splits Hdocs. subst splits. unfold ingest.
  destruct files as [|f files]; [done|].
  pose proof (load_all_disk env (f :: files) [] w) as Hdisk.
  destruct (load_all env (f :: files) [] w) as [documents w1].
  cbn [fst snd] in *.
  destruct documents as [|d documents]; [done|].
  by rewrite Hdisk.
Qed.

Lemma build_ingests env docs_dir rebuild w s :
  dir_exists (persist_directory (config s)) (disk w) && negb rebuild
  = false →
  build_knowledge_base env docs_dir rebuild w s
  = ingest env
      (flat_map (glob_recursive env docs_dir)
         (default default_formats (supported_formats (config s))))
      (_initialize_embeddings w s).1 (_initialize_embeddings w s).2.
Proof.
  intros Hcond. unfold build_knowledge_base.
  destruct (initialize_embeddings_frame w s) as (Hd & Hc & _).
  destruct (_initialize_embeddings w s) as [w0 s1]. cbn [fst snd] in *.
  by rewrite Hc, Hd, Hcond.
Qed.

(** The build without [rebuild] opens the store whenever the directory
    exists, whether or not it holds [chroma.sqlite3]. *)
Lemma build_short_circuit env docs_dir w s :
  dir_exists (persist_directory (config s)) (disk w) = true →
  build_knowledge_base env docs_dir false w s
  = match
      Chroma (persist_directory (config s)) (collection_name (config s))
        (disk w)
    with
    | Ok d =>
        (Ok tt, set_disk d (_initialize_embeddings w s).1,
         set_vectorstore
           (Some (persist_directory (config s), collection_name (config s)))
           (_initialize_embeddings w s).2)
    | Raises msg =>
        (Raises msg, (_initialize_embeddings w s).1,
         (_initialize_embeddings w s).2)
    end.
Proof.
  intros Hdir. unfold build_knowledge_base.
  destruct (initialize_embeddings_frame w s) as (Hd & Hc & _).
  destruct (_initialize_embeddings w s) as [w0 s1]. cbn [fst snd] in *.
  by rewrite Hc, Hd, Hdir.
Qed.

(** A build with [rebuild] on a store that is there adds the fresh chunks
    after whatever the collection already holds. *)
Lemma rebuild_appends env docs_dir w s db :
  let files :=
    flat_map (glob_recursive env docs_dir)
      (default default_formats (supported_formats (config s))) in
  disk w !! persist_directory (config s) = Some (Database db) →
  (load_all env files [] w).1 ≠ [] →
  let r := build_knowledge_base env docs_dir true w s in
  r.1.1 = Ok tt
  ∧ index_entries r.1.2 r.2
    = Some
        (collection_entries (persist_directory (config s))
           (collection_name (config s)) (disk w)
         ++ filter_complex_metadata env
              (split_documents env (chunk_size (config s))
                 (chunk_overlap (config s)) (separators (config s))
                 (load_all env files [] w).1)).
Proof.
  intros files Hdb Hdocs r. subst r.
  rewrite build_ingests by apply andb_false_r.
  destruct (initialize_embeddings_frame w s) as (Hd & Hc & Hv & _).
  fold files.
  pose proof (ingest_result env files (_initialize_embeddings w s).1
                (_initialize_embeddings w s).2) as Hing.
  cbv zeta in Hing.
  rewrite (load_all_documents env files [] _ w), Hc, Hd in Hing.
  rewrite (Hing Hdocs). clear Hing.
  unfold Chroma_from_documents. rewrite Hdb. cbn [fst snd].
  split; [done|].
  unfold index_entries. cbn [set_vectorstore vectorstore add_log set_disk disk].
  by rewrite collection_entries_from_documents.
Qed.

(** C1 at a persisted collection with one entry and a documents directory
    with one loadable file.  The files of the directory give one chunk: on
    an empty disk the build stores that chunk alone.  On the persisted
    collection [build_knowledge_base] with [rebuild=True] returns with the
    index holding two entries, the stale one followed by the fresh chunk:
    nothing has been discarded. *)
Theorem rebuild_keeps_stale_entries :
  index_entries Samples.built_world Samples.loaded_kb
  = Some [Samples.grass]
  ∧ (let r := build_knowledge_base Samples.env (py "docs") true
                Samples.empty_world Samples.fresh_kb in
     r.1.1 = Ok tt ∧ index_entries r.1.2 r.2 = Some [Samples.sky])
  ∧ (let r := build_knowledge_base Samples.env (py "docs") true
                Samples.built_world Samples.loaded_kb in
     r.1.1 = Ok tt
     ∧ index_entries r.1.2 r.2 = Some [Samples.grass; Samples.sky]).
Proof. repeat split; vm_compute; reflexivity. Qed.

(** C6 at a persist directory that exists but holds no [chroma.sqlite3].
    The constructor finds no collection there, yet [build_knowledge_base]
    with [rebuild=False] short-circuits: it opens an empty collection and
    loads no file; the log holds the record of the embedding model and
    nothing of a file or of a finished build.  Without the directory the
    same call builds afresh: the files are loaded, the unreadable one
    leaves its record, and the chunk is stored. *)
Theorem build_opens_directory_without_marker :
  marker_exists (py "./chroma_db") (disk Samples.bare_dir_world) = false
  ∧ vectorstore (init Samples.cfg Samples.bare_dir_world).2 = None
  ∧ (let r := build_knowledge_base Samples.env (py "docs") false
                Samples.bare_dir_world Samples.fresh_kb in
     r.1.1 = Ok tt
     ∧ index_entries r.1.2 r.2 = Some []
     ∧ log r.1.2 = [embeddings_loaded Samples.cfg])
  ∧ (let r := build_knowledge_base Samples.env (py "docs") false
                Samples.empty_world Samples.fresh_kb in
     r.1.1 = Ok tt
     ∧ index_entries r.1.2 r.2 = Some [Samples.sky]
     ∧ log r.1.2
       = [embeddings_loaded Samples.cfg;
          load_failed (py "docs/bad.pdf") (py "EOF marker not found");
          build_done 1]).
Proof. repeat split; vm_compute; reflexivity. Qed.

(** ** A bad file in a build *)




(** The build over the three sample files: the text file, the unreadable
    PDF, the book.  The index holds the document of the text file and the
    two units of the book. *)
Example build_over_bad_file :
  let r := build_knowledge_base MoreSamples.shelf_env (py "docs") false
             Samples.empty_world Samples.fresh_kb in
  r.1.1 = Ok tt
  ∧ option_map (map page_content) (index_entries r.1.2 r.2)
    = Some [py "The sky is blue."; py "Chapter 1 The sky is blue.";
            py "Grass is green."]
  ∧ log r.1.2
    = [embeddings_loaded Samples.cfg;
       load_failed (py "docs/bad.pdf") (py "EOF marker not found");
       build_done 3].
Proof. repeat split; vm_compute; reflexivity. Qed.

(** ** Cleaning *)

Lemma isspace_SPACE : isspace SPACE = true.
Proof. reflexivity. Qed.

Lemma isspace_GT : isspace GT = false.
Proof. reflexivity. Qed.

Lemma isspace_LT : isspace LT = false.
Proof. reflexivity. Qed.

Lemma existsb_GT (s : pystr) :
  existsb (λ c, (c =? GT)%N) s = true ↔ GT ∈ s.
Proof.
  rewrite existsb_exists. split.
  - intros (x & Hin & Heq). apply N.eqb_eq in Heq. subst.
    by apply list_elem_of_In.
  - intros Hin. exists GT. split; [by apply list_elem_of_In|].
    apply N.eqb_refl.
Qed.

Lemma tag_opens_false_no_GT (s : pystr) : GT ∉ s → tag_opens s = false.
Proof.
  destruct s as [|x r]; [done|]. intros Hno. cbn [tag_opens].
  destruct (existsb (λ c, (c =? GT)%N) r) eqn:Hex;
    [|by rewrite andb_false_r].
  apply existsb_GT in Hex. exfalso. apply Hno. by right.
Qed.

Lemma tag_opens_false_inv (s : pystr) :
  tag_opens s = false → s = [] ∨ (∃ r, s = GT :: r) ∨ GT ∉ s.
Proof.
  destruct s as [|x r]; [by left|]. cbn [tag_opens]. intros H.
  apply andb_false_iff in H as [H|H].
  - right; left. apply negb_false_iff, N.eqb_eq in H. subst. by exists r.
  - destruct (decide (x = GT)) as [->|Hx]; [right; left; by exists r|].
    right; right. intros Hin. apply elem_of_cons in Hin as [Heq|Hin];
      [by subst|].
    apply existsb_GT in Hin. congruence.
Qed.

Lemma remove_tags_from_sub in_tag (s : pystr) c :
  c ∈ remove_tags_from in_tag s → c ∈ s.
Proof.
  revert in_tag. induction s as [|x r IH]; intros in_tag; [done|].
  cbn [remove_tags_from]. destruct in_tag.
  - destruct (x =? GT)%N; intros H; right; eauto.
  - destruct ((x =? LT)%N && tag_opens r).
    + intros H; right; eauto.
    + intros H. apply elem_of_cons in H as [->|H]; [by left|right; eauto].
Qed.

Lemma remove_tags_keeps_closed (s : pystr) :
  tag_opens s = false → tag_opens (remove_tags_from false s) = false.
Proof.
  intros H. apply tag_opens_false_inv in H as [->|[[r ->]|Hno]]; [done| |].
  - cbn [remove_tags_from]. done.
  - apply tag_opens_false_no_GT. intros Hin. apply Hno.
    by apply remove_tags_from_sub in Hin.
Qed.

Lemma remove_tags_from_tag_free in_tag (s : pystr) :
  tag_free (remove_tags_from in_tag s) = true.
Proof.
  revert in_tag. induction s as [|x r IH]; intros in_tag; [done|].
  cbn [remove_tags_from]. destruct in_tag.
  - destruct (x =? GT)%N; apply IH.
  - destruct (x =? LT)%N eqn:Hx; cbn [andb].
    + destruct (tag_opens r) eqn:Hopen; [apply IH|].
      cbn [tag_free]. rewrite Hx, remove_tags_keeps_closed by done.
      cbn [andb negb]. apply IH.
    + cbn [tag_free]. rewrite Hx. cbn [andb negb]. apply IH.
Qed.

Lemma tag_free_no_tag (t : pystr) : tag_free t = true → ¬ has_tag t.
Proof.
  intros Hfree (a & b & c & -> & Hb & Hno).
  induction a as [|y a IH].
  - cbn [app tag_free] in Hfree.
    rewrite N.eqb_refl in Hfree. cbn [andb] in Hfree.
    destruct b as [|x b]; [done|].
    assert (tag_opens ((x :: b) ++ GT :: c) = true) as Hopen.
    { cbn [app tag_opens]. apply andb_true_iff. split.
      - apply negb_true_iff, N.eqb_neq. intros ->. apply Hno. by left.
      - apply existsb_GT. set_solver. }
    rewrite Hopen in Hfree. done.
  - cbn [app tag_free] in Hfree. apply andb_true_iff in Hfree as [_ Hfree].
    by apply IH.
Qed.

Lemma has_tag_app (p t q : pystr) : has_tag t → has_tag (p ++ t ++ q).
Proof.
  intros (a & b & c & -> & Hb & Hno).
  exists (p ++ a), b, (c ++ q). split; [|done].
  rewrite <- !(assoc_L (++)). cbn [app]. rewrite <- !(assoc_L (++)). done.
Qed.

Lemma collapse_from_sub in_run (s : pystr) c :
  c ∈ collapse_from in_run s → c ∈ s ∨ c = SPACE.
Proof.
  revert in_run. induction s as [|x r IH]; intros in_run; [set_solver|].
  cbn [collapse_from]. destruct (isspace x).
  - destruct in_run.
    + intros H. destruct (IH _ H); [left; by right|by right].
    + intros H. apply elem_of_cons in H as [->|H]; [by right|].
      destruct (IH _ H); [left; by right|by right].
  - intros H. apply elem_of_cons in H as [->|H]; [left; by left|].
    destruct (IH _ H); [left; by right|by right].
Qed.

Lemma collapse_keeps_closed (s : pystr) :
  tag_opens s = false → tag_opens (collapse_from false s) = false.
Proof.
  intros H. apply tag_opens_false_inv in H as [->|[[r ->]|Hno]]; [done| |].
  - cbn [collapse_from]. by rewrite isspace_GT.
  - apply tag_opens_false_no_GT. intros Hin.
    apply collapse_from_sub in Hin as [Hin|Heq]; [done|discriminate].
Qed.

Lemma collapse_from_tag_free in_run (t : pystr) :
  tag_free t = true → tag_free (collapse_from in_run t) = true.
Proof.
  revert in_run. induction t as [|x r IH]; intros in_run; [done|].
  cbn [tag_free collapse_from]. intros H.
  apply andb_true_iff in H as [Hx Hr].
  destruct (isspace x) eqn:Hsp.
  - destruct in_run; [by apply IH|].
    cbn [tag_free]. by rewrite IH.
  - cbn [tag_free]. rewrite IH by done. rewrite andb_true_r.
    destruct (x =? LT)%N; [|done]. cbn [andb negb] in *.
    apply negb_true_iff in Hx. by rewrite collapse_keeps_closed.
Qed.

Lemma lstrip_suffix (s : pystr) :
  ∃ p, s = p ++ lstrip s ∧ Forall (λ c, isspace c = true) p.
Proof.
  induction s as [|x r (p & Hp & Hall)]; [by exists []|].
  cbn [lstrip]. destruct (isspace x) eqn:Hx.
  - exists (x :: p). split; [cbn [app]; congruence|by constructor].
  - by exists [].
Qed.

Lemma lstrip_head (s : pystr) c :
  head (lstrip s) = Some c → isspace c = false.
Proof.
  induction s as [|x r IH]; [done|].
  cbn [lstrip]. destruct (isspace x) eqn:Hx; [done|].
  cbn [head]. congruence.
Qed.

Lemma rstrip_prefix (s : pystr) :
  ∃ q, s = rstrip s ++ q ∧ Forall (λ c, isspace c = true) q.
Proof.
  unfold rstrip. destruct (lstrip_suffix (rev s)) as (p & Hp & Hall).
  exists (rev p). split; [|by apply Forall_rev].
  rewrite <- rev_app_distr, <- Hp. by rewrite rev_involutive.
Qed.

Lemma rstrip_last (s : pystr) c :
  last (rstrip s) = Some c → isspace c = false.
Proof.
  unfold rstrip. rewrite rev_alt.
  change (rev_append (lstrip (rev s)) []) with (reverse (lstrip (rev s))).
  rewrite last_reverse. apply lstrip_head.
Qed.

Lemma rstrip_head (s : pystr) c :
  (∀ x, head s = Some x → isspace x = false) →
  head (rstrip s) = Some c → isspace c = false.
Proof.
  intros Hs Hc. destruct (rstrip_prefix s) as (q & Hq & _).
  apply Hs. rewrite Hq. destruct (rstrip s); [done|]. done.
Qed.

Lemma strip_infix (s : pystr) :
  ∃ p q, s = p ++ strip s ++ q
         ∧ Forall (λ c, isspace c = true) p
         ∧ Forall (λ c, isspace c = true) q.
Proof.
  unfold strip. destruct (lstrip_suffix s) as (p & Hp & Hall).
  destruct (rstrip_prefix (lstrip s)) as (q & Hq & Hall').
  exists p, q. by rewrite <- Hq.
Qed.

Lemma strip_head (s : pystr) c :
  head (strip s) = Some c → isspace c = false.
Proof. unfold strip. apply rstrip_head, lstrip_head. Qed.

Lemma strip_last (s : pystr) c :
  last (strip s) = Some c → isspace c = false.
Proof. unfold strip. apply rstrip_last. Qed.

Lemma clean_content_no_tag content : ¬ has_tag (clean_content content).
Proof.
  unfold clean_content. intros Htag.
  destruct (strip_infix (collapse_whitespace (remove_tags content)))
    as (p & q & Hpq & _).
  apply (has_tag_app p _ q) in Htag. rewrite <- Hpq in Htag.
  revert Htag. apply tag_free_no_tag, collapse_from_tag_free.
  apply remove_tags_from_tag_free.
Qed.

Lemma collapse_from_single_spaced in_run (s : pystr) :
  single_spaced in_run (collapse_from in_run s) = true.
Proof.
  revert in_run. induction s as [|x r IH]; intros in_run; [done|].
  cbn [collapse_from]. destruct (isspace x) eqn:Hx.
  - destruct in_run; [apply IH|].
    cbn [single_spaced]. by rewrite isspace_SPACE, IH.
  - cbn [single_spaced]. rewrite Hx. apply IH.
Qed.

Lemma single_spaced_weaken after_space (t : pystr) :
  single_spaced after_space t = true → single_spaced false t = true.
Proof.
  destruct t as [|x r]; [done|]. cbn [single_spaced].
  destruct (isspace x); [|done]. destruct after_space; [|done].
  cbn [negb]. by rewrite andb_false_r.
Qed.

Lemma single_spaced_app after_space (p t : pystr) :
  single_spaced after_space (p ++ t) = true →
  single_spaced false t = true.
Proof.
  revert after_space. induction p as [|x p IH]; intros after_space.
  - apply single_spaced_weaken.
  - cbn [app single_spaced]. destruct (isspace x); [|apply IH].
    intros H. apply andb_true_iff in H as [_ H]. by apply IH in H.
Qed.

Lemma single_spaced_prefix after_space (t q : pystr) :
  single_spaced after_space (t ++ q) = true →
  single_spaced after_space t = true.
Proof.
  revert after_space. induction t as [|x t IH]; intros after_space; [done|].
  cbn [app single_spaced]. destruct (isspace x); [|apply IH].
  intros H. apply andb_true_iff in H as [H1 H2].
  rewrite H1. by apply IH.
Qed.

Lemma single_spaced_only_spaces after_space (t : pystr) c :
  single_spaced after_space t = true →
  c ∈ t → isspace c = true → c = SPACE.
Proof.
  revert after_space. induction t as [|x t IH]; intros after_space Ht Hin Hc.
  - by apply elem_of_nil in Hin.
  - cbn [single_spaced] in Ht. apply elem_of_cons in Hin as [->|Hin].
    + rewrite Hc in Ht. apply andb_true_iff in Ht as [Ht _].
      apply andb_true_iff in Ht as [Ht _]. by apply N.eqb_eq in Ht.
    + destruct (isspace x); [|by eapply IH].
      apply andb_true_iff in Ht as [_ Ht]. by eapply IH.
Qed.

Lemma single_spaced_no_pair after_space (t a b : pystr) x y :
  single_spaced after_space t = true →
  t = a ++ x :: y :: b → ¬ (isspace x = true ∧ isspace y = true).
Proof.
  intros Ht -> [Hx Hy]. apply single_spaced_app in Ht.
  cbn [single_spaced] in Ht. rewrite Hx, Hy in Ht.
  cbn [negb] in Ht. by rewrite !andb_false_r in Ht.
Qed.

Lemma clean_content_whitespace content :
  whitespace_collapsed (clean_content content).
Proof.
  unfold clean_content.
  set (u := collapse_whitespace (remove_tags content)).
  assert (Hu : single_spaced false (strip u) = true).
  { destruct (strip_infix u) as (p & q & Hpq & _).
    pose proof (collapse_from_single_spaced false (remove_tags content))
      as H.
    fold (collapse_whitespace (remove_tags content)) in H. fold u in H.
    rewrite Hpq in H. apply single_spaced_app in H.
    by apply single_spaced_prefix in H. }
  split; [|split; [|split]].
  - intros c. by apply single_spaced_only_spaces with false.
  - intros a x y b. by apply single_spaced_no_pair with false.
  - apply strip_head.
  - apply strip_last.
Qed.

Lemma lstrip_all_space (s : pystr) :
  Forall (λ c, isspace c = true) s → lstrip s = [].
Proof.
  induction 1 as [|x r Hx _ IH]; [done|]. cbn [lstrip]. by rewrite Hx.
Qed.

Lemma strip_all_space (s : pystr) :
  Forall (λ c, isspace c = true) s → strip s = [].
Proof. intros H. unfold strip. by rewrite lstrip_all_space. Qed.

Lemma strip_empty_all_space (s : pystr) :
  strip s = [] → Forall (λ c, isspace c = true) s.
Proof.
  intros H. destruct (strip_infix s) as (p & q & Hpq & Hp & Hq).
  rewrite H in Hpq. rewrite Hpq. by apply Forall_app.
Qed.

(** The first test of the loop is implied by the second. *)
Lemma clean_content_of_blank content :
  nonempty (strip content) = false → clean_content content = [].
Proof.
  intros H. assert (Hall : Forall (λ c, isspace c = true) content).
  { apply strip_empty_all_space. by destruct (strip content). }
  unfold clean_content. apply strip_all_space.
  rewrite Forall_forall in Hall. apply Forall_forall. intros c Hin.
  apply collapse_from_sub in Hin as [Hin| ->]; [|apply isspace_SPACE].
  apply Hall. by apply remove_tags_from_sub in Hin.
Qed.

Lemma epub_items_clean file_path book items :
  ∀ documents result,
  epub_items file_path book items documents = Ok result →
  Forall clean_unit documents → Forall clean_unit result.
Proof.
  induction items as [|item items IH]; intros documents result.
  - cbn [epub_items]. by intros [= <-].
  - cbn [epub_items]. destruct (item_is_document item); [|apply IH].
    destruct (item_content item) as [content|msg]; [|done].
    destruct (nonempty (strip content)); [|apply IH].
    destruct (nonempty (clean_content content)) eqn:Hne; [|apply IH].
    destruct (book_dc book) as [[title_meta author_meta]|kmsg]; [|done].
    intros Hres Hall. apply (IH _ _ Hres).
    apply Forall_app. split; [done|]. constructor; [|done].
    split; [|split].
    + cbn [epub_document page_content]. by destruct (clean_content content).
    + apply clean_content_no_tag.
    + apply clean_content_whitespace.
Qed.

Lemma component_texts_cons item items :
  omap component_text (item :: items)
  = match component_text item with
    | Some content => content :: omap component_text items
    | None => omap component_text items
    end.
Proof. done. Qed.

Lemma epub_items_units file_path book title_meta author_meta items :
  book_dc book = Ok (title_meta, author_meta) →
  Forall decodes items →
  ∀ documents,
  epub_items file_path book items documents
  = Ok (documents
        ++ map (epub_document file_path title_meta author_meta)
             (filter (.≠ []) (map clean_content
                                (omap component_text items)))).
Proof.
  intros Hdc.
  induction 1 as [|item items Hitem _ IH]; intros documents.
  - cbn [epub_items omap]. by rewrite app_nil_r.
  - rewrite component_texts_cons. cbn [epub_items].
    unfold component_text, decodes in *.
    destruct (item_is_document item); [|apply IH].
    destruct Hitem as [content Hcontent]; [done|]. rewrite Hcontent.
    cbn [map]. rewrite filter_cons.
    destruct (nonempty (strip content)) eqn:Hraw.
    + destruct (clean_content content) as [|c clean] eqn:Hclean.
      * cbn [nonempty]. rewrite decide_False by (intros H; by apply H).
        apply IH.
      * cbn [nonempty]. rewrite decide_True by done.
        rewrite Hdc, IH. cbn [map]. by rewrite <- (assoc_L (++)).
    + rewrite (clean_content_of_blank _ Hraw).
      rewrite decide_False by (intros H; by apply H). apply IH.
Qed.

Lemma load_attempt_epub env file_path :
  file_ext (file_at env file_path) = py ".epub" →
  load_attempt env file_path
  = Some (load_epub file_path (file_at env file_path)).
Proof. intros Hext. unfold load_attempt. rewrite Hext. reflexivity. Qed.

(** What the loader returns for an e-book that [epub.read_epub] opens: every
    unit has a non-empty text with no match of the tag pattern left and
    with whitespace collapsed (single spaces only, none at the ends). *)
Lemma epub_units_clean env file_path w book :
  file_ext (file_at env file_path) = py ".epub" →
  epub_read (file_at env file_path) = Ok book →
  Forall clean_unit (_load_document env file_path w).1.
Proof.
  intros Hext Hbook. unfold _load_document.
  rewrite (load_attempt_epub env file_path Hext). unfold load_epub.
  rewrite Hbook.
  destruct (epub_items file_path book (book_items book) []) as [docs|msg]
    eqn:Hitems; [|done].
  cbn [fst]. by apply (epub_items_clean _ _ _ _ _ Hitems).
Qed.

(** C9 at a book of three chapters whose second chapter is not valid UTF-8.
    The first and the third chapter decode, and their cleaned texts are not
    empty: skipping the component that cannot be extracted would leave two
    units.  The loader returns none: the decoding error of the second
    chapter leaves the loop, and the file is logged as failed.  A component
    of another type is skipped without being decoded: the sample book with
    an image that does not decode gives its two units. *)
Theorem epub_undecodable_component_not_skipped :
  epub_read (file_at MoreSamples.env (py "docs/broken.epub"))
  = Ok MoreSamples.broken_book
  ∧ map (λ item, (item_is_document item, item_content item))
      (book_items MoreSamples.broken_book)
    = [(true, Ok (py "<p>Chapter 1</p>"));
       (true, Raises (py "invalid start byte"));
       (true, Ok (py "<p>Chapter 3</p>"))]
  ∧ filter (.≠ [])
      (map clean_content
         (omap component_text (book_items MoreSamples.broken_book)))
    = [py "Chapter 1"; py "Chapter 3"]
  ∧ _load_document MoreSamples.env (py "docs/broken.epub")
      Samples.empty_world
    = ([], add_log
             (load_failed (py "docs/broken.epub") (py "invalid start byte"))
             Samples.empty_world)
  ∧ map (λ item, (item_is_document item,
                  match item_content item with
                  | Ok _ => true
                  | Raises _ => false
                  end))
      (book_items Samples.book)
    = [(true, true); (false, false); (true, true); (true, true)]
  ∧ map page_content
      (_load_document Samples.env (py "docs/book.epub")
         Samples.empty_world).1
    = [py "Chapter 1 The sky is blue."; py "Grass is green."].
Proof. repeat split; vm_compute; reflexivity. Qed.

Example book_units :
  map page_content
    (_load_document Samples.env (py "docs/book.epub")
       Samples.empty_world).1
  = [py "Chapter 1 The sky is blue."; py "Grass is green."].
Proof. vm_compute. reflexivity. Qed.

Example remove_tags_comparison :
  remove_tags (py "a < b and c > d") = py "a  d".
Proof. vm_compute. reflexivity. Qed.

Example remove_tags_empty_brackets :
  remove_tags (py "<><b>x</b>") = py "<>x".
Proof. vm_compute. reflexivity. Qed.

Example collapse_ideographic_space :
  clean_content [12288%N; 97%N; 12288%N; 10%N; 98%N; 160%N] = py "a b".
Proof. vm_compute. reflexivity. Qed.

(** ** The chunker's overlap *)

Module TextSplitterFacts.
Import TextSplitter.




Section Longest.

Context (chunk_size chunk_overlap : nat).









End Longest.






(** With the separators of the default configuration, chunks of at most six
    characters and an overlap of three: the unit is cut at its spaces into
    one run of four pieces; the piece carried over has three characters,
    its leading space included, and the chunks share two. *)
Example overlap_after_strip :
  chosen [[NEWLINE; NEWLINE]; [NEWLINE]; [SPACE]; []] (py "ab cd ef gh")
  = Some ([SPACE], [[]])
  ∧ runs 6 (_split_text_with_regex (py "ab cd ef gh") [SPACE]) []
    = [Short [py "ab"; py " cd"; py " ef"; py " gh"]]
  ∧ merge_windows 6 3 [py "ab"; py " cd"; py " ef"; py " gh"] []
    = [[py "ab"; py " cd"]; [py " cd"; py " ef"]; [py " ef"; py " gh"]]
  ∧ split_text 6 3 [[NEWLINE; NEWLINE]; [NEWLINE]; [SPACE]; []]
      (py "ab cd ef gh")
    = [py "ab cd"; py "cd ef"; py "ef gh"].
Proof. repeat split; vm_compute; reflexivity. Qed.

(** Pieces of one character: here the overlap is the configured one. *)
Example overlap_of_characters :
  split_text 4 2 [[SPACE]; []] (py "abcdefghij kl")
  = [py "abcd"; py "cdef"; py "efgh"; py "ghij"; py "kl"].
Proof. vm_compute. reflexivity. Qed.

End TextSplitterFacts.

(** * Further properties *)

(** ** What the build collects *)

(** The loop of the build hands on, in the order of the files, exactly the
    documents the loader returns for each file, after the documents it
    started with. *)
Theorem load_all_in_order env files documents w :
  (load_all env files documents w).1
  = documents ++ concat (map (λ p, (_load_document env p w).1) files).
Proof.
  revert documents w.
  induction files as [|f files IH]; intros documents w.
  - cbn [load_all map concat fst]. by rewrite app_nil_r.
  - cbn [load_all map concat].
    destruct (_load_document env f w) as [docs w1] eqn:Hload. cbn [fst].
    assert (Hrest : map (λ p, (_load_document env p w1).1) files
                    = map (λ p, (_load_document env p w).1) files).
    { apply map_ext. intros p. apply load_document_documents. }
    destruct (decide (docs = [])) as [->|Hne].
    + rewrite bool_decide_eq_false_2 by (intros H; by apply H).
      rewrite IH, Hrest. done.
    + rewrite bool_decide_eq_true_2 by done.
      rewrite IH, Hrest. by rewrite <- (assoc_L (++)).
Qed.

(** The loop of the web interface, which extends the list without testing
    the loader's result, collects the same documents as the loop of
    [build_knowledge_base] over the same files. *)
Theorem ui_load_all_same_documents env files documents w :
  (ui_load_all env files documents w).1
  = (load_all env files documents w).1.
Proof.
  revert documents w.
  induction files as [|f files IH]; intros documents w; [done|].
  cbn [ui_load_all load_all].
  destruct (_load_document env f w) as [docs w1].
  destruct (decide (docs = [])) as [->|Hne].
  - rewrite bool_decide_eq_false_2 by (intros H; by apply H).
    rewrite app_nil_r. apply IH.
  - rewrite bool_decide_eq_true_2 by done. apply IH.
Qed.

(** ** Entries are only ever added *)

Lemma collection_entries_from_documents_other documents dir name dir' name' d :
  (dir', name') ≠ (dir, name) →
  collection_entries dir' name' (from_documents documents dir name d)
  = collection_entries dir' name' d.
Proof.
  intros Hne. unfold from_documents, collection_entries, chroma_database.
  destruct (decide (dir' = dir)) as [->|Hdir].
  - rewrite lookup_insert_eq.
    rewrite lookup_insert_ne by congruence.
    by destruct (d !! dir) as [[|db|msg]|].
  - by rewrite lookup_insert_ne.
Qed.

Lemma collection_entries_open_any dir name dir' name' d :
  collection_entries dir' name' (chroma_open dir name d)
  = collection_entries dir' name' d.
Proof.
  unfold chroma_open, collection_entries at 1, chroma_database.
  destruct (decide (dir' = dir)) as [->|Hdir].
  - rewrite lookup_insert_eq.
    destruct (decide (name' = name)) as [->|Hname].
    + by rewrite lookup_insert_eq.
    + rewrite lookup_insert_ne by done. unfold collection_entries.
      by destruct (d !! dir) as [[|db|msg]|].
  - rewrite lookup_insert_ne by done. done.
Qed.

Lemma from_documents_grows documents dir name dir' name' d :
  collection_entries dir' name' d
  `prefix_of` collection_entries dir' name'
                (from_documents documents dir name d).
Proof.
  destruct (decide ((dir', name') = (dir, name))) as [[= -> ->]|Hne].
  - rewrite collection_entries_from_documents. by apply prefix_app_r.
  - by rewrite collection_entries_from_documents_other.
Qed.

(** Whatever its arguments, [build_knowledge_base] only ever adds: in every
    directory and collection the entries held before the build are a prefix
    of the entries held after it. *)
Theorem build_never_removes_entries env docs_dir rebuild w s dir name :
  collection_entries dir name (disk w)
  `prefix_of` collection_entries dir name
                (disk (build_knowledge_base env docs_dir rebuild w s).1.2).
Proof.
  unfold build_knowledge_base.
  destruct (initialize_embeddings_frame w s) as (Hd0 & _).
  destruct (_initialize_embeddings w s) as [w0 s1]. cbn [fst snd] in Hd0.
  rewrite <- Hd0.
  destruct (dir_exists _ (disk w0) && negb rebuild).
  - unfold Chroma.
    destruct (disk w0 !! _) as [[|db|msg]|]; cbn [fst snd set_disk disk];
      try done; by rewrite collection_entries_open_any.
  - unfold ingest.
    destruct (flat_map _ _) as [|f files]; [done|].
    pose proof (load_all_disk env (f :: files) [] w0) as Hdisk.
    destruct (load_all env (f :: files) [] w0) as [documents w1].
    cbn [snd] in Hdisk.
    destruct documents as [|d documents]; cbn [fst snd]; [by rewrite Hdisk|].
    destruct (Chroma_from_documents _ _ _ s1 (disk w1)) as [d'|msg]
      eqn:Hcall; cbn [fst snd add_log set_disk disk]; [|by rewrite Hdisk].
    rewrite (from_documents_returns _ _ _ _ _ _ Hcall), Hdisk.
    apply from_documents_grows.
Qed.

(** ** Reopening what a build has stored *)

Lemma chroma_open_from_documents documents dir name d :
  chroma_open dir name (from_documents documents dir name d)
  = from_documents documents dir name d.
Proof.
  unfold chroma_open. rewrite collection_entries_from_documents.
  unfold from_documents at 1 2, chroma_database at 1.
  rewrite lookup_insert_eq, !insert_insert_eq. done.
Qed.

Lemma dir_exists_from_documents documents dir name d :
  dir_exists dir (from_documents documents dir name d) = true.
Proof.
  unfold dir_exists, from_documents. apply bool_decide_eq_true_2.
  rewrite lookup_insert_eq. by eexists.
Qed.

Lemma marker_exists_from_documents documents dir name d :
  marker_exists dir (from_documents documents dir name d) = true.
Proof. unfold marker_exists, from_documents. by rewrite lookup_insert_eq. Qed.

Lemma Chroma_from_documents_again documents dir name d :
  Chroma dir name (from_documents documents dir name d)
  = Ok (from_documents documents dir name d).
Proof.
  unfold Chroma. rewrite chroma_open_from_documents.
  unfold from_documents at 1. by rewrite lookup_insert_eq.
Qed.

(** After a build that ingests (no persist directory yet, or [rebuild]) and
    returns, a newly constructed object finds the store: it gets the same
    handle and the same entries; and a further build without [rebuild]
    returns and changes neither the world nor the object. *)
Theorem built_store_is_found_again env docs_dir rebuild w s w' s' :
  dir_exists (persist_directory (config s)) (disk w) && negb rebuild
  = false →
  (load_all env
     (flat_map (glob_recursive env docs_dir)
        (default default_formats (supported_formats (config s))))
     [] w).1 ≠ [] →
  build_knowledge_base env docs_dir rebuild w s = (Ok tt, w', s') →
  vectorstore (init (config s) w').2 = vectorstore s'
  ∧ index_entries (init (config s) w').1 (init (config s) w').2
    = index_entries w' s'
  ∧ build_knowledge_base env docs_dir false w' s' = (Ok tt, w', s').
Proof.
  intros Hcond Hdocs. rewrite build_ingests by done.
  destruct (initialize_embeddings_frame w s) as (Hd & Hc & Hv & _).
  pose proof (initialize_embeddings_log w s) as Hlog0.
  assert (Hemb : embeddings (_initialize_embeddings w s).2 = true).
  { unfold _initialize_embeddings. by destruct (embeddings s) eqn:He. }
  destruct (_initialize_embeddings w s) as [w0 s1]. cbn [fst snd] in *.
  rewrite <- Hc.
  rewrite (ingest_result env _ w0 s1)
    by (by rewrite Hc, (load_all_documents env _ [] w0 w)).
  set (splits := filter_complex_metadata env _).
  set (dir := persist_directory (config s1)).
  set (name := collection_name (config s1)).
  destruct (Chroma_from_documents splits dir name s1 (disk w0)) as [d|msg]
    eqn:Hcall; [|discriminate].
  apply from_documents_returns in Hcall. subst d.
  intros [= <- <-].
  unfold init, _try_load_existing_knowledge_base.
  cbn [config add_log set_disk disk fst snd].
  fold dir name.
  rewrite dir_exists_from_documents, marker_exists_from_documents.
  cbn [andb _initialize_embeddings embeddings config add_log set_disk disk].
  rewrite Chroma_from_documents_again.
  cbn [fst snd set_vectorstore vectorstore]. split; [done|]. split; [done|].
  rewrite build_short_circuit
    by (cbn [set_vectorstore config add_log set_disk disk];
        apply dir_exists_from_documents).
  cbn [set_vectorstore config add_log set_disk disk]. fold dir name.
  rewrite Chroma_from_documents_again.
  rewrite initialize_embeddings_again by done.
  cbn [fst snd set_disk add_log disk log set_vectorstore vectorstore].
  done.
Qed.

(** ** The build of the web interface *)




(** ** Queries leave the store alone *)

Lemma create_qa_chain_config w s :
  config (_create_qa_chain w s).2 = config s.
Proof.
  unfold _create_qa_chain, _initialize_llm.
  by destruct (qa_chain s), (llm s).
Qed.

Lemma stream_loop_frame env q docs acc response w s :
  disk (stream_loop env q docs acc response w s).1.2 = disk w
  ∧ vectorstore (stream_loop env q docs acc response w s).2 = vectorstore s
  ∧ config (stream_loop env q docs acc response w s).2 = config s.
Proof.
  revert acc. induction response as [|msg|c rest IH]; intros acc;
    cbn [stream_loop]; [done|done|].
  destruct (chunk_text c); [done|apply IH].
Qed.

Lemma query_stream_frame env q show cmd g w s :
  disk (query_stream env q show cmd g w s).1.2 = disk w
  ∧ vectorstore (query_stream env q show cmd g w s).2 = vectorstore s
  ∧ config (query_stream env q show cmd g w s).2 = config s.
Proof.
  destruct g, cmd as [|e];
    try (cbn [query_stream]; try done;
         try (destruct (is_Exception e); done);
         apply stream_loop_frame).
  rewrite query_stream_first.
  destruct (index_entries w s); [|done].
  destruct (get_relevant_documents env l q).
  - destruct (stream_loop_frame env q a [] (llm_stream env
      (format_prompt (context_str a) (chat_history_str (memory s)) q))
      (_create_qa_chain w s).1 (_create_qa_chain w s).2)
      as (H1 & H2 & H3).
    by rewrite H1, H2, H3, create_qa_chain_vectorstore,
      create_qa_chain_config, create_qa_chain_disk.
  - cbn [stream_failed fst snd add_log disk].
    by rewrite create_qa_chain_vectorstore, create_qa_chain_config,
      create_qa_chain_disk.
Qed.

(** Queries never write to the persisted store: the blocking [query], and
    any run of [query_stream] from any program point under any consumer,
    leave the disk and the object's store handle as they were. *)
Theorem queries_leave_store_alone env question show_sources cmds g w s :
  (disk (query env question show_sources w s).1.2 = disk w
   ∧ vectorstore (query env question show_sources w s).2 = vectorstore s)
  ∧ disk (consume env question cmds g w s).1.2 = disk w
  ∧ vectorstore (consume env question cmds g w s).2 = vectorstore s.
Proof.
  split.
  - destruct (index_entries w s) as [entries|] eqn:Hidx.
    + rewrite (query_with_index env question show_sources w s entries Hidx).
      destruct (qa_chain_call env entries _ question)
        as [[answer sources]|msg];
        cbn [fst snd add_turn set_memory vectorstore add_log disk];
        by rewrite create_qa_chain_vectorstore, create_qa_chain_disk.
    + unfold query. by rewrite Hidx.
  - revert g w s. induction cmds as [|cmd cmds IH]; intros g w s; [done|].
    cbn [consume].
    destruct (query_stream_frame env question false cmd g w s)
      as (H1 & H2 & _).
    destruct (query_stream env question false cmd g w s)
      as [[[r g1] w1] s1].
    destruct (IH g1 w1 s1) as [H3 H4].
    destruct (consume env question cmds g1 w1 s1) as [[[rs g2] w2] s2].
    cbn [fst snd] in *. split; congruence.
Qed.


(** ** No empty increment *)

Lemma chunk_text_nonempty c t : chunk_text c = Some t → t ≠ [].
Proof.
  unfold chunk_text.
  assert (Hstr : match str_value c with
                 | Some content =>
                     if nonempty content then Some content else None
                 | None => None
                 end = Some t → t ≠ []).
  { destruct (str_value c) as [content|]; [|done].
    destruct content; [done|]. by intros [= <-]. }
  destruct (content_attr c) as [v|]; [|done].
  destruct (truthy v); [|done].
  destruct (to_str v); [done|]. by intros [= <-].
Qed.

Lemma query_failed_nonempty msg : query_failed msg ≠ [].
Proof.
  unfold query_failed. intros H. apply app_eq_nil in H as [H _].
  vm_compute in H. discriminate H.
Qed.

Lemma not_initialized_nonempty : not_initialized ≠ [].
Proof. intros H. vm_compute in H. discriminate H. Qed.

Lemma yields_text_stop : yields_text StopIteration.
Proof. intros t d H. discriminate H. Qed.

Lemma yields_text_propagates e : yields_text (Propagates e).
Proof. intros t d H. discriminate H. Qed.

Lemma yields_text_failed msg : yields_text (Yield (query_failed msg) []).
Proof. intros t d [= <- _]. apply query_failed_nonempty. Qed.

Lemma stream_loop_yields_text env q docs acc response w s :
  yields_text (stream_loop env q docs acc response w s).1.1.1.
Proof.
  revert acc. induction response as [|msg|c rest IH]; intros acc;
    cbn [stream_loop].
  - cbn [fst]. intros t d [= <- _]. apply time_info_nonempty.
  - cbn [stream_failed fst]. apply yields_text_failed.
  - destruct (chunk_text c) as [content|] eqn:Hc; [|apply IH].
    intros t d [= <- _]. by apply chunk_text_nonempty in Hc.
Qed.

Lemma query_stream_yields_text env q show cmd g w s :
  yields_text (query_stream env q show cmd g w s).1.1.1.
Proof.
  destruct g, cmd as [|e];
    try rewrite query_stream_first; cbn [query_stream fst];
    try apply yields_text_stop; try apply yields_text_propagates;
    try apply stream_loop_yields_text.
  - destruct (index_entries w s).
    + destruct (get_relevant_documents env l q);
        [apply stream_loop_yields_text|].
      cbn [stream_failed fst]. apply yields_text_failed.
    + cbn [fst]. intros t d [= <- _]. apply not_initialized_nonempty.
  - destruct (is_Exception e); cbn [stream_failed fst];
      [apply yields_text_failed|apply yields_text_propagates].
  - destruct (is_Exception e); cbn [stream_failed fst];
      [apply yields_text_failed|apply yields_text_propagates].
Qed.

(** No run of [query_stream] hands the consumer an empty text: increments,
    the time line, the "not initialized" message and failure messages are
    all non-empty. *)
Theorem query_stream_never_yields_empty env question cmds g w s :
  Forall yields_text (consume env question cmds g w s).1.1.1.
Proof.
  revert g w s. induction cmds as [|cmd cmds IH]; intros g w s;
    [constructor|].
  cbn [consume].
  pose proof (query_stream_yields_text env question false cmd g w s) as Hr.
  destruct (query_stream env question false cmd g w s) as [[[r g1] w1] s1].
  specialize (IH g1 w1 s1).
  destruct (consume env question cmds g1 w1 s1) as [[[rs g2] w2] s2].
  cbn [fst snd] in *. by constructor.
Qed.

(** ** The next prompt *)

(** The history the next streaming prompt is built from ends with the turn
    just saved, preceded by the last four messages of the memory before
    it. *)
Theorem next_prompt_shows_last_turn question answer s :
  last_six (memory (add_turn question answer s))
  = drop (length (memory s) - 4) (memory s)
    ++ [HumanMessage question; AIMessage answer].
Proof.
  unfold last_six, add_turn. cbn [set_memory memory].
  rewrite length_app. cbn [length].
  destruct (decide (length (memory s) ≤ 4)) as [Hle|Hgt].
  - replace (length (memory s) + 2 - 6) with 0 by lia.
    replace (length (memory s) - 4) with 0 by lia. done.
  - replace (length (memory s) + 2 - 6) with (length (memory s) - 4) by lia.
    rewrite drop_app_le by lia. done.
Qed.

(** ** Cleaning twice *)

Lemma has_tag_cons c (t : pystr) : has_tag t → has_tag (c :: t).
Proof. intros H. apply (has_tag_app [c] t []) in H. by rewrite app_nil_r in H. Qed.

Lemma tag_opens_has_tag (r : pystr) : tag_opens r = true → has_tag (LT :: r).
Proof.
  destruct r as [|x r]; [done|]. cbn [tag_opens]. intros H.
  apply andb_true_iff in H as [Hx Hr].
  apply negb_true_iff, N.eqb_neq in Hx. apply existsb_GT in Hr.
  apply list_elem_of_split_l in Hr as (b & c & -> & Hb).
  exists [], (x :: b), c. split; [done|]. split; [done|].
  intros Hin. apply elem_of_cons in Hin as [Heq|Hin]; [by subst|done].
Qed.

Lemma no_tag_tag_free (t : pystr) : ¬ has_tag t → tag_free t = true.
Proof.
  induction t as [|c r IH]; [done|]. intros Hno. cbn [tag_free].
  rewrite IH by (intros H; apply Hno; by apply has_tag_cons).
  rewrite andb_true_r. apply negb_true_iff.
  destruct (c =? LT)%N eqn:Hc; [|done]. cbn [andb].
  destruct (tag_opens r) eqn:Hopen; [|done].
  exfalso. apply Hno. apply N.eqb_eq in Hc. subst.
  by apply tag_opens_has_tag.
Qed.

Lemma remove_tags_tag_free (t : pystr) :
  tag_free t = true → remove_tags t = t.
Proof.
  unfold remove_tags. induction t as [|c r IH]; [done|].
  cbn [tag_free remove_tags_from]. intros H.
  apply andb_true_iff in H as [Hc Hr]. apply negb_true_iff in Hc.
  rewrite Hc. by rewrite IH.
Qed.

Lemma collapse_single_spaced after_space (t : pystr) :
  single_spaced after_space t = true → collapse_from after_space t = t.
Proof.
  revert after_space. induction t as [|c r IH]; intros after_space; [done|].
  cbn [single_spaced collapse_from]. destruct (isspace c).
  - intros H. apply andb_true_iff in H as [H Hr].
    apply andb_true_iff in H as [Hc Hp]. apply N.eqb_eq in Hc.
    apply negb_true_iff in Hp. subst. by rewrite IH.
  - intros H. by rewrite IH.
Qed.

Lemma lstrip_head_id (t : pystr) :
  (∀ c, head t = Some c → isspace c = false) → lstrip t = t.
Proof.
  destruct t as [|c r]; [done|]. intros H. cbn [lstrip].
  by rewrite (H c eq_refl).
Qed.

Lemma strip_stripped (t : pystr) :
  (∀ c, head t = Some c → isspace c = false) →
  (∀ c, last t = Some c → isspace c = false) →
  strip t = t.
Proof.
  intros Hhead Hlast. unfold strip. rewrite lstrip_head_id by done.
  unfold rstrip. rewrite lstrip_head_id.
  - apply rev_involutive.
  - intros c Hc. apply Hlast. rewrite <- Hc, rev_alt.
    change (rev_append t []) with (reverse t). by rewrite head_reverse.
Qed.

Lemma clean_content_single_spaced content :
  single_spaced false (clean_content content) = true.
Proof.
  unfold clean_content.
  destruct (strip_infix (collapse_whitespace (remove_tags content)))
    as (p & q & Hpq & _).
  pose proof (collapse_from_single_spaced false (remove_tags content)) as H.
  fold (collapse_whitespace (remove_tags content)) in H.
  rewrite Hpq in H. apply single_spaced_app in H.
  by apply single_spaced_prefix in H.
Qed.

(** Cleaning is idempotent: the two substitutions and the [strip] change
    nothing in a text they have produced. *)
Theorem clean_content_idempotent content :
  clean_content (clean_content content) = clean_content content.
Proof.
  set (t := clean_content content).
  unfold clean_content at 1.
  rewrite remove_tags_tag_free
    by (apply no_tag_tag_free, clean_content_no_tag).
  unfold collapse_whitespace.
  rewrite collapse_single_spaced by apply clean_content_single_spaced.
  apply strip_stripped; unfold t, clean_content;
    [apply strip_head|apply strip_last].
Qed.

(** ** E-books that fail part of the way *)

Lemma epub_items_ok_prefix file_path book before :
  Forall decodes before →
  ∀ after documents,
  (∃ documents',
     epub_items file_path book (before ++ after) documents
     = epub_items file_path book after documents')
  ∨ (∃ kmsg,
       book_dc book = Raises kmsg
       ∧ epub_items file_path book (before ++ after) documents
         = Raises kmsg).
Proof.
  induction 1 as [|item before Hitem _ IH]; intros after documents.
  - left. by exists documents.
  - cbn [app epub_items]. unfold decodes in Hitem.
    destruct (item_is_document item); [|apply IH].
    destruct Hitem as [content ->]; [done|].
    destruct (nonempty (strip content)); [|apply IH].
    destruct (nonempty (clean_content content)); [|apply IH].
    destruct (book_dc book) as [[title_meta author_meta]|kmsg] eqn:Hdc.
    + destruct (IH after
                  (documents
                   ++ [epub_document file_path title_meta author_meta
                         (clean_content content)]))
        as [Hgo|(kmsg & Hk & _)]; [by left|discriminate Hk].
    + right. by exists kmsg.
Qed.

(** One document component that fails to decode loses the whole book: the
    loader returns no unit, whatever the components before it held, and
    logs one failure; on a book with Dublin Core metadata the failure
    logged is the decoding error. *)
Theorem epub_undecodable_component_loses_book env file_path w book before
    item after msg :
  file_ext (file_at env file_path) = py ".epub" →
  epub_read (file_at env file_path) = Ok book →
  book_items book = before ++ item :: after →
  Forall decodes before →
  item_is_document item = true →
  item_content item = Raises msg →
  ∃ logged,
    _load_document env file_path w
    = ([], add_log (load_failed file_path logged) w)
    ∧ (∀ meta, book_dc book = Ok meta → logged = msg).
Proof.
  intros Hext Hbook Hitems Hbefore Hdoc Hraise. unfold _load_document.
  rewrite (load_attempt_epub env file_path Hext). unfold load_epub.
  rewrite Hbook, Hitems.
  destruct (epub_items_ok_prefix file_path book before Hbefore
              (item :: after) [])
    as [(documents' & ->)|(kmsg & Hk & ->)].
  - exists msg. cbn [epub_items]. by rewrite Hdoc, Hraise.
  - exists kmsg. split; [done|]. intros meta Hmeta.
    rewrite Hmeta in Hk. discriminate Hk.
Qed.

Lemma epub_items_made file_path book title_meta author_meta items :
  book_dc book = Ok (title_meta, author_meta) →
  ∀ documents result,
  epub_items file_path book items documents = Ok result →
  Forall (λ d, d = epub_document file_path title_meta author_meta
                     (page_content d))
    documents →
  Forall (λ d, d = epub_document file_path title_meta author_meta
                     (page_content d))
    result.
Proof.
  intros Hdc.
  induction items as [|item items IH]; intros documents result.
  - cbn [epub_items]. by intros [= <-].
  - cbn [epub_items]. destruct (item_is_document item); [|apply IH].
    destruct (item_content item) as [content|msg]; [|done].
    destruct (nonempty (strip content)); [|apply IH].
    destruct (nonempty (clean_content content)); [|apply IH].
    rewrite Hdc.
    intros Hres Hall. apply (IH _ _ Hres).
    apply Forall_app. split; [done|]. by constructor.
Qed.

(** Without Dublin Core metadata no unit is returned. *)
Lemma epub_items_without_dc file_path book kmsg items :
  book_dc book = Raises kmsg →
  ∀ documents result,
  epub_items file_path book items documents = Ok result →
  result = documents.
Proof.
  intros Hdc.
  induction items as [|item items IH]; intros documents result.
  - cbn [epub_items]. by intros [= <-].
  - cbn [epub_items]. destruct (item_is_document item); [|apply IH].
    destruct (item_content item) as [content|msg]; [|done].
    destruct (nonempty (strip content)); [|apply IH].
    destruct (nonempty (clean_content content)); [|apply IH].
    by rewrite Hdc.
Qed.

Lemma epub_document_metadata file_path title_meta author_meta clean :
  metadata (epub_document file_path title_meta author_meta clean)
    !! py "source"
  = Some file_path
  ∧ metadata (epub_document file_path title_meta author_meta clean)
      !! py "title"
    = Some (first_or_unknown title_meta)
  ∧ metadata (epub_document file_path title_meta author_meta clean)
      !! py "author"
    = Some (first_or_unknown author_meta).
Proof.
  unfold epub_document. cbn [metadata list_to_map foldr fst snd uncurry].
  assert (H1 : py "source" ≠ py "title") by (vm_compute; discriminate).
  assert (H2 : py "source" ≠ py "author") by (vm_compute; discriminate).
  assert (H3 : py "title" ≠ py "author") by (vm_compute; discriminate).
  split; [|split].
  - by rewrite lookup_insert_eq.
  - rewrite lookup_insert_ne by exact H1. by rewrite lookup_insert_eq.
  - rewrite lookup_insert_ne by exact H2.
    rewrite lookup_insert_ne by exact H3. by rewrite lookup_insert_eq.
Qed.

(** Every unit of an e-book carries the file's path as its source; its
    title and its author are Python's [str()] of the first tuple of value
    and attributes that the book's Dublin Core metadata lists for title and
    creator, not the value alone, and [Unknown] when the list is empty.  A
    book that yields a unit has Dublin Core metadata. *)
Theorem epub_units_metadata env file_path w book d :
  file_ext (file_at env file_path) = py ".epub" →
  epub_read (file_at env file_path) = Ok book →
  d ∈ (_load_document env file_path w).1 →
  ∃ title_meta author_meta,
    book_dc book = Ok (title_meta, author_meta)
    ∧ metadata d !! py "source" = Some file_path
    ∧ metadata d !! py "title"
      = Some match title_meta with
             | entry :: _ => dc_str entry
             | [] => py "Unknown"
             end
    ∧ metadata d !! py "author"
      = Some match author_meta with
             | entry :: _ => dc_str entry
             | [] => py "Unknown"
             end.
Proof.
  intros Hext Hbook. unfold _load_document.
  rewrite (load_attempt_epub env file_path Hext). unfold load_epub.
  rewrite Hbook.
  destruct (epub_items file_path book (book_items book) []) as [docs|msg]
    eqn:Hitems; cbn [fst]; [|by intros H%elem_of_nil].
  intros Hin.
  destruct (book_dc book) as [[title_meta author_meta]|kmsg] eqn:Hdc.
  - exists title_meta, author_meta. split; [done|].
    pose proof (epub_items_made _ _ _ _ _ Hdc _ _ Hitems (Forall_nil_2 _))
      as Hall.
    rewrite Forall_forall in Hall. rewrite (Hall d Hin).
    apply epub_document_metadata.
  - rewrite (epub_items_without_dc _ _ _ _ Hdc _ _ Hitems) in Hin.
    by apply elem_of_nil in Hin.
Qed.

(** ** The added properties at the sample inputs *)

Lemma built_store_is_found_again_witness :
  let r := build_knowledge_base Samples.env (py "docs") false
             Samples.empty_world Samples.fresh_kb in
  vectorstore (init Samples.cfg r.1.2).2 = vectorstore r.2
  ∧ index_entries (init Samples.cfg r.1.2).1 (init Samples.cfg r.1.2).2
    = index_entries r.1.2 r.2
  ∧ build_knowledge_base Samples.env (py "docs") false r.1.2 r.2
    = (Ok tt, r.1.2, r.2).
Proof.
  intros r.
  apply (built_store_is_found_again Samples.env (py "docs") false
           Samples.empty_world Samples.fresh_kb r.1.2 r.2).
  - reflexivity.
  - vm_compute. discriminate.
  - vm_compute. reflexivity.
Defined.


(** The three cases at the samples: a repeated build without [rebuild]
    duplicates; a [rebuild] by an object that holds the store open fails and
    leaves no store; a [rebuild] by an object that holds no client leaves
    the fresh chunk alone. *)
Example ui_build_duplicates_without_rebuild :
  (let r := build_kb_stream Samples.env (py "docs") false
              Samples.built_world Samples.loaded_kb in
   r.1.1 = BuildCompleted
   ∧ index_entries r.1.2 r.2 = Some [Samples.grass; Samples.sky])
  ∧ (let r := build_kb_stream Samples.env (py "docs") true
                Samples.built_world Samples.loaded_kb in
     r.1.1 = BuildFailed (py "attempt to write a readonly database")
     ∧ disk r.1.2 = ∅)
  ∧ (let r := build_kb_stream Samples.env (py "docs") true
                Samples.built_world Samples.fresh_kb in
     r.1.1 = BuildCompleted
     ∧ index_entries r.1.2 r.2 = Some [Samples.sky]).
Proof. repeat split; vm_compute; reflexivity. Qed.

Lemma epub_undecodable_component_loses_book_witness :
  _load_document MoreSamples.env (py "docs/broken.epub")
    Samples.empty_world
  = ([], add_log
           (load_failed (py "docs/broken.epub") (py "invalid start byte"))
           Samples.empty_world).
Proof.
  assert (Hbefore :
    Forall decodes
      [ {| item_is_document := true;
           item_content := Ok (py "<p>Chapter 1</p>") |} ]).
  { constructor; [intros _; eexists; reflexivity|constructor]. }
  destruct (epub_undecodable_component_loses_book MoreSamples.env
              (py "docs/broken.epub") Samples.empty_world
              MoreSamples.broken_book
              [ {| item_is_document := true;
                   item_content := Ok (py "<p>Chapter 1</p>") |} ]
              {| item_is_document := true;
                 item_content := Raises (py "invalid start byte") |}
              [ {| item_is_document := true;
                   item_content := Ok (py "<p>Chapter 3</p>") |} ]
              (py "invalid start byte")
              eq_refl eq_refl eq_refl Hbefore eq_refl eq_refl)
    as (logged & Hload & Hlogged).
  rewrite Hload. by rewrite (Hlogged _ eq_refl).
Defined.

Lemma epub_units_metadata_witness :
  let d := epub_document (py "docs/book.epub")
             [ {| dc_value := py "Colours";
                  dc_str := py "('Colours', {})" |} ]
             [] (py "Grass is green.") in
  ∃ title_meta author_meta,
    book_dc Samples.book = Ok (title_meta, author_meta)
    ∧ metadata d !! py "source" = Some (py "docs/book.epub")
    ∧ metadata d !! py "title"
      = Some match title_meta with
             | entry :: _ => dc_str entry
             | [] => py "Unknown"
             end
    ∧ metadata d !! py "author"
      = Some match author_meta with
             | entry :: _ => dc_str entry
             | [] => py "Unknown"
             end.
Proof.
  intros d.
  apply (epub_units_metadata Samples.env (py "docs/book.epub")
           Samples.empty_world Samples.book d).
  - reflexivity.
  - reflexivity.
  - vm_compute. right. left.
Defined.

(** The title kept for the sample book is the text of the tuple, not the
    title. *)
Example book_title_is_tuple_text :
  map (λ d, metadata d !! py "title")
    (_load_document Samples.env (py "docs/book.epub")
       Samples.empty_world).1
  = [Some (py "('Colours', {})"); Some (py "('Colours', {})")]
  ∧ map (λ d, metadata d !! py "author")
      (_load_document Samples.env (py "docs/book.epub")
         Samples.empty_world).1
    = [Some (py "Unknown"); Some (py "Unknown")].
Proof. split; vm_compute; reflexivity. Qed.



Example lower_ex : lower (py "ExIt") = py "exit".
Proof. vm_compute. reflexivity. Qed.

(** ** The interactive session *)

Lemma query_human_messages env question show w s q :
  HumanMessage q ∈ memory (query env question show w s).2 →
  HumanMessage q ∈ memory s ∨ q = question.
Proof.
  destruct (index_entries w s) as [entries|] eqn:Hidx;
    [|unfold query; rewrite Hidx; by left].
  rewrite (query_with_index env question show w s entries Hidx).
  destruct (qa_chain_call env entries _ question) as [[answer sources]|msg];
    cbn [snd add_turn set_memory memory]; rewrite ?create_qa_chain_memory;
    [|by left].
  intros Hin. apply elem_of_app in Hin as [Hin|Hin]; [by left|].
  apply elem_of_cons in Hin as [[= ->]|Hin]; [by right|].
  apply elem_of_cons in Hin as [Hin|Hin]; [discriminate Hin|].
  by apply elem_of_nil in Hin.
Qed.

(** Whatever is typed, a human message that a session of [chat] leaves in
    memory either was there before or is a line the session handed to
    [query]: a line that is no exit word, no clear word and not blank.
    Commands and blank lines are never remembered. *)
Theorem chat_remembers_only_questions env inputs w s q :
  HumanMessage q ∈ memory (chat env inputs w s).2 →
  HumanMessage q ∈ memory s ∨ (Line q ∈ inputs ∧ asked q).
Proof.
  revert w s. induction inputs as [|e inputs IH]; intros w s; [by left|].
  assert (Hlater : ∀ w' s',
            HumanMessage q ∈ memory (chat env inputs w' s').2 →
            memory s' = memory s ∨ memory s' = [] →
            HumanMessage q ∈ memory s
            ∨ (Line q ∈ e :: inputs ∧ asked q)).
  { intros w' s' Hin Hmem. destruct (IH w' s' Hin) as [Hold|[Hline Hq]].
    - destruct Hmem as [Hmem|Hmem]; rewrite Hmem in Hold; [by left|].
      by apply elem_of_nil in Hold.
    - right. split; [by right|done]. }
  destruct e as [question| |msg]; cbn [chat].
  - destruct (bool_decide (lower question ∈ exit_words)) eqn:Hexit;
      [by left|].
    destruct (bool_decide (lower question ∈ clear_words)) eqn:Hclear.
    { intros Hin. apply (Hlater _ _ Hin). by right. }
    destruct (nonempty (strip question)) eqn:Hblank; cbn [negb].
    + pose proof (query_human_messages env question true w s q) as Hq.
      destruct (query env question true w s) as [[r w1] s1]. cbn [snd] in Hq.
      intros Hin. destruct (IH w1 s1 Hin) as [Hold|[Hline Hasked]].
      * destruct (Hq Hold) as [Hs| ->]; [by left|].
        right. split; [by left|]. split; [|split].
        -- by apply bool_decide_eq_false_1 in Hexit.
        -- by apply bool_decide_eq_false_1 in Hclear.
        -- by destruct (strip question).
      * right. split; [by right|done].
    + intros Hin. apply (Hlater _ _ Hin). by left.
  - by left.
  - intros Hin. apply (Hlater _ _ Hin). by left.
Qed.

(** An exit word, in any letter case, or an interrupt at the prompt ends
    the session there: [chat] does what it does on the events up to that
    one, and reads nothing that follows. *)
Theorem chat_stops_at_exit env before e after w s :
  leaves e →
  chat env (before ++ e :: after) w s = chat env (before ++ [e]) w s
  ∧ (chat env (before ++ e :: after) w s).1.1 = ChatLeft.
Proof.
  intros He. revert w s.
  induction before as [|b before IH]; intros w s.
  - destruct e as [question| |msg]; cbn [app chat leaves] in *;
      [|done|done].
    by rewrite bool_decide_eq_true_2.
  - destruct b as [question| |msg]; cbn [app chat]; [|done|apply IH].
    destruct (bool_decide (lower question ∈ exit_words)); [done|].
    destruct (bool_decide (lower question ∈ clear_words)); [apply IH|].
    destruct (negb (nonempty (strip question))); [apply IH|].
    destruct (query env question true w s) as [[r w1] s1]. apply IH.
Qed.

(** ** The command line *)



(** ** The callbacks of the web interface *)

Lemma set_last_snoc {A} (l : list A) old entry :
  set_last (l ++ [old]) entry = Some (l ++ [entry]).
Proof.
  unfold set_last. destruct (l ++ [old]) as [|x l'] eqn:Hl.
  - by destruct l.
  - rewrite <- Hl. rewrite length_app. cbn [length].
    replace (length l + 1 - 1) with (length l) by lia.
    by rewrite take_app_length.
Qed.




(** [handle_submit] with a file the loader gives up on: the history gains
    one entry that names the file and says that it could not be loaded, the
    loader's entry goes to the log, and the model is neither initialised nor
    called. *)
Theorem handle_submit_reports_bad_file env ui question file_path history
    entry w s :
  file_path ≠ [] →
  bad_file env file_path entry →
  handle_submit env ui question (Some file_path) history w s
  = (history ++ [(file_label file_path question, file_not_loaded)],
     add_log entry w, s).
Proof.
  intros Hpath Hbad. destruct file_path as [|c path]; [done|].
  unfold handle_submit. cbn [given nonempty negb].
  rewrite andb_false_r.
  rewrite (load_document_bad env (c :: path) entry w Hbad).
  by rewrite set_last_snoc.
Qed.

(** [handle_submit] with a file leaves the conversation memory and the
    index as they were, whatever the loader and the model do: neither the
    file nor the answer about it is kept; the history gains one entry,
    labelled with the file. *)
Theorem handle_submit_file_not_remembered env ui question file_path history
    w s :
  file_path ≠ [] →
  let r := handle_submit env ui question (Some file_path) history w s in
  memory r.2 = memory s
  ∧ index_entries r.1.2 r.2 = index_entries w s
  ∧ ∃ shown, r.1.1 = history ++ [(file_label file_path question, shown)].
Proof.
  intros Hpath. destruct file_path as [|c path]; [done|].
  unfold handle_submit. cbn [given nonempty negb]. rewrite andb_false_r.
  pose proof (load_document_disk env (c :: path) w) as Hdisk.
  destruct (_load_document env (c :: path) w) as [doc w1].
  cbn [snd] in Hdisk.
  assert (Hidx : ∀ w' s', disk w' = disk w1 →
            vectorstore s' = vectorstore s →
            index_entries w' s' = index_entries w s).
  { intros w' s' Hw' Hs'. unfold index_entries. by rewrite Hs', Hw', Hdisk. }
  destruct doc as [|d doc]; [rewrite set_last_snoc; by eauto|].
  assert (Hllm : memory (_initialize_llm w1 s).2 = memory s
                 ∧ vectorstore (_initialize_llm w1 s).2 = vectorstore s
                 ∧ disk (_initialize_llm w1 s).1 = disk w1).
  { unfold _initialize_llm. by destruct (llm s). }
  destruct (_initialize_llm w1 s) as [w2 s1].
  cbn [fst snd] in Hllm. destruct Hllm as (Hm & Hv & Hd).
  destruct (llm_invoke ui _) as [response|msg]; rewrite set_last_snoc;
    cbn [fst snd]; (split; [done|]); (split; [by apply Hidx|]); by eauto.
Qed.

(** ** The streaming callback *)

Lemma concat_snoc (parts : list pystr) (t : pystr) :
  concat (parts ++ [t]) = concat parts ++ t.
Proof. rewrite concat_app. cbn [concat]. by rewrite app_nil_r. Qed.

Lemma stream_passes_completes env ui q docs response :
  response_completes response = true →
  ∀ fuel pass parts earlier old g w s chunks w0 s0,
  query_stream env q false Next g w s
  = stream_loop env q docs chunks response w0 s0 →
  length (response_texts response) + 2 ≤ fuel →
  ∃ shown,
    stream_passes env ui q fuel pass parts (earlier ++ [old]) g w s
    = Some (shown
            ++ [earlier
                ++ [(q, concat (parts ++ response_texts response)
                        ++ time_info (generation_time_2f env))]],
            UiReturns, w0,
            add_turn q (concat (chunks ++ response_texts response)) s0).
Proof.
  intros Hok.
  induction response as [|msg|c rest IH];
    intros fuel pass parts earlier old g w s chunks w0 s0 Hstep Hfuel;
    [|done|].
  - destruct fuel as [|[|fuel]]; [cbn in Hfuel; lia..|].
    exists []. cbn [stream_passes]. rewrite Hstep.
    cbn [stream_loop response_texts]. rewrite concat_snoc.
    rewrite contains_time_info, set_last_snoc.
    cbn [query_stream app]. by rewrite !app_nil_r.
  - cbn [response_completes] in Hok.
    cbn [stream_loop response_texts] in *.
    destruct (chunk_text c) as [t|]; [|by apply (IH Hok)].
    destruct fuel as [|fuel]; [cbn in Hfuel; lia|].
    cbn [stream_passes]. rewrite Hstep. rewrite set_last_snoc.
    edestruct (IH Hok fuel (S pass) (parts ++ [t]) earlier) as [shown ->];
      [reflexivity|cbn [length] in Hfuel; lia|].
    eexists (_ :: shown). cbn [app].
    by rewrite <- !(assoc_L (++) _ [t]).
Qed.

(** [query_kb_stream], iterated to its end over a response that ends
    without raising: [n + 2] passes suffice for [n] increments, and the
    callback returns.  The last list shown is the history with one entry
    more, the question with the concatenation of the increments followed by
    the time line and no progress footer.  The memory then holds one turn
    more than before: the question, and the concatenation of the increments
    without the time line.  The log gains the record of the model's
    connection when this run is the first to need the model; the disk is as
    it was. *)
Theorem query_kb_stream_final_display env ui question history fuel w s docs
    response :
  nonempty (strip question) = true →
  stream_response env question w s = Some (docs, response) →
  response_completes response = true →
  length (response_texts response) + 2 ≤ fuel →
  ∃ shown w' s',
    query_kb_stream env ui question history fuel w s
    = Some (shown
            ++ [history
                ++ [(question,
                     concat (response_texts response)
                     ++ time_info (generation_time_2f env))]],
            UiReturns, w', s')
    ∧ memory s'
      = memory s
        ++ [HumanMessage question;
            AIMessage (concat (response_texts response))]
    ∧ log w'
      = log w
        ++ (if qa_chain s || llm s then []
            else [ollama_connected (config s)])
    ∧ disk w' = disk w.
Proof.
  intros Hq Hresp Hok Hfuel. unfold query_kb_stream. rewrite Hq.
  cbn [negb]. unfold stream_response in Hresp.
  edestruct (stream_passes_completes env ui question docs response Hok fuel
               0 [] history (question, searching) GenCreated w s []
               (_create_qa_chain w s).1 (_create_qa_chain w s).2)
    as [shown ->]; [|exact Hfuel|].
  - rewrite query_stream_first.
    destruct (index_entries w s) as [entries|]; [|done].
    destruct (get_relevant_documents env entries question) as [docs'|msg];
      [|done].
    by injection Hresp as -> <-.
  - eexists (_ :: shown), _, _. split; [reflexivity|].
    cbn [add_turn set_memory memory app].
    by rewrite create_qa_chain_memory, create_qa_chain_log,
      create_qa_chain_disk.
Qed.

Lemma not_initialized_unmarked :
  contains time_marker not_initialized = false.
Proof. vm_compute. reflexivity. Qed.

(** [query_kb_stream] without an index shows two lists: the placeholder,
    then the message that the knowledge base is not initialised followed by
    the progress footer, which is never taken away. *)
Theorem query_kb_stream_without_index env ui question history fuel w s :
  nonempty (strip question) = true →
  index_entries w s = None →
  2 ≤ fuel →
  query_kb_stream env ui question history fuel w s
  = Some ([history ++ [(question, searching)];
           history
           ++ [(question, not_initialized ++ progress (elapsed_1f ui 0))]],
          UiReturns, w, s).
Proof.
  intros Hq Hidx Hfuel. unfold query_kb_stream. rewrite Hq. cbn [negb].
  destruct fuel as [|[|fuel]]; [lia..|].
  cbn [stream_passes query_stream]. rewrite Hidx.
  cbn [app concat]. rewrite app_nil_r, not_initialized_unmarked.
  by rewrite set_last_snoc.
Qed.

(** ** The sessions and the callbacks at the sample inputs *)


Lemma chat_remembers_only_questions_witness :
  HumanMessage Samples.question ∈ memory Samples.loaded_kb
  ∨ (Line Samples.question ∈ [Line (py "Clear"); Line Samples.question]
     ∧ asked Samples.question).
Proof.
  apply (chat_remembers_only_questions Samples.env
           [Line (py "Clear"); Line Samples.question] Samples.built_world
           Samples.loaded_kb Samples.question).
  vm_compute. left.
Defined.

Lemma chat_stops_at_exit_witness :
  chat Samples.env
    ([Line Samples.question] ++ Line (py "QUIT") :: [Line (py "Why?")])
    Samples.built_world Samples.loaded_kb
  = chat Samples.env ([Line Samples.question] ++ [Line (py "QUIT")])
      Samples.built_world Samples.loaded_kb
  ∧ (chat Samples.env
       ([Line Samples.question] ++ Line (py "QUIT") :: [Line (py "Why?")])
       Samples.built_world Samples.loaded_kb).1.1
    = ChatLeft.
Proof.
  apply (chat_stops_at_exit Samples.env [Line Samples.question]
           (Line (py "QUIT")) [Line (py "Why?")] Samples.built_world
           Samples.loaded_kb).
  vm_compute. right. left.
Defined.



Lemma handle_submit_reports_bad_file_witness :
  handle_submit Samples.env UiSamples.ui [] (Some (py "docs/bad.pdf"))
    UiSamples.earlier Samples.built_world Samples.loaded_kb
  = (UiSamples.earlier
     ++ [(file_label (py "docs/bad.pdf") [], file_not_loaded)],
     add_log (load_failed (py "docs/bad.pdf") (py "EOF marker not found"))
       Samples.built_world,
     Samples.loaded_kb).
Proof.
  apply (handle_submit_reports_bad_file Samples.env UiSamples.ui []
           (py "docs/bad.pdf") UiSamples.earlier
           (load_failed (py "docs/bad.pdf") (py "EOF marker not found"))
           Samples.built_world Samples.loaded_kb).
  - vm_compute. discriminate.
  - right. exists (py "EOF marker not found"). split; reflexivity.
Defined.

Lemma query_kb_stream_final_display_witness :
  ∃ shown w' s',
    query_kb_stream Samples.env UiSamples.ui Samples.question
      UiSamples.earlier 4 Samples.built_world Samples.loaded_kb
    = Some (shown
            ++ [UiSamples.earlier
                ++ [(Samples.question,
                     concat (response_texts Samples.sky_answer)
                     ++ time_info (generation_time_2f Samples.env))]],
            UiReturns, w', s')
    ∧ memory s'
      = memory Samples.loaded_kb
        ++ [HumanMessage Samples.question;
            AIMessage (concat (response_texts Samples.sky_answer))]
    ∧ log w'
      = log Samples.built_world
        ++ (if qa_chain Samples.loaded_kb || llm Samples.loaded_kb then []
            else [ollama_connected (config Samples.loaded_kb)])
    ∧ disk w' = disk Samples.built_world.
Proof.
  apply (query_kb_stream_final_display Samples.env UiSamples.ui
           Samples.question UiSamples.earlier 4 Samples.built_world
           Samples.loaded_kb [Samples.grass] Samples.sky_answer).
  - vm_compute. reflexivity.
  - vm_compute. reflexivity.
  - reflexivity.
  - vm_compute. lia.
Defined.

Lemma query_kb_stream_without_index_witness :
  query_kb_stream Samples.env UiSamples.ui Samples.question
    UiSamples.earlier 2 Samples.empty_world Samples.fresh_kb
  = Some ([UiSamples.earlier ++ [(Samples.question, searching)];
           UiSamples.earlier
           ++ [(Samples.question,
                not_initialized ++ progress (elapsed_1f UiSamples.ui 0))]],
          UiReturns, Samples.empty_world, Samples.fresh_kb).
Proof.
  apply (query_kb_stream_without_index Samples.env UiSamples.ui
           Samples.question UiSamples.earlier 2 Samples.empty_world
           Samples.fresh_kb).
  - vm_compute. reflexivity.
  - reflexivity.
  - lia.
Defined.

Example stream_display_of_sky_answer :
  let r := query_kb_stream Samples.env UiSamples.ui Samples.question [] 4
             Samples.built_world Samples.loaded_kb in
  option_map (λ x, x.1.1.1) r
  = Some [[(Samples.question, searching)];
          [(Samples.question, py "The sky " ++ progress (py "0.5"))];
          [(Samples.question,
            py "The sky is blue." ++ progress (py "1.5"))];
          [(Samples.question,
            py "The sky is blue." ++ time_info (py "1.50"))]]
  ∧ option_map (λ x, memory x.2) r
    = Some [HumanMessage Samples.question;
            AIMessage (py "The sky is blue.")]
  ∧ option_map (λ x, log x.1.2) r
    = Some [LogInfo (py "Ollama 模型: qwen2.5:7b")].
Proof. repeat split; vm_compute; reflexivity. Qed.

Lemma handle_submit_file_not_remembered_witness :
  let r :=
    handle_submit Samples.env UiSamples.ui Samples.question
      (Some (py "docs/sky.txt")) UiSamples.earlier Samples.built_world
      Samples.loaded_kb in
  memory r.2 = memory Samples.loaded_kb
  ∧ index_entries r.1.2 r.2
    = index_entries Samples.built_world Samples.loaded_kb
  ∧ ∃ shown,
      r.1.1
      = UiSamples.earlier
        ++ [(file_label (py "docs/sky.txt") Samples.question, shown)].
Proof.
  apply (handle_submit_file_not_remembered Samples.env UiSamples.ui
           Samples.question (py "docs/sky.txt") UiSamples.earlier
           Samples.built_world Samples.loaded_kb).
  vm_compute. discriminate.
Defined.

Example file_answer_of_sky :
  (handle_submit Samples.env UiSamples.ui Samples.question
     (Some (py "docs/sky.txt")) [] Samples.built_world
     Samples.loaded_kb).1.1
  = [(py "📎 sky.txt
What color is the sky?",
      py "A note on colours." ++ time_info (py "2.25"))].
Proof. vm_compute. reflexivity. Qed.

